(** * dormdigest: digestion of a raw mail into an [Email] record

    A shallow embedding of [src/utils/email_parser.py].

    Python [str] values are modelled by Rocq strings; a character stands for
    the code point of the same number, so the texts covered are those whose
    code points lie in U+0000..U+00FF.  Exceptions are modelled by a sum
    type; the mutable list [headers_not_found] is threaded explicitly. *)

From Stdlib Require Import String Ascii List Bool Arith Lia.
From stdpp Require Import gmap strings.
Import ListNotations.

Local Open Scope string_scope.
Local Open Scope nat_scope.

#[local] Arguments String.append !s1 s2.

(** ** Python string primitives used by the module *)

Module Str.

(** The code point of a character. *)
Definition ord (c : ascii) : nat := nat_of_ascii c.

Definition in_range (lo hi : nat) (c : ascii) : bool :=
  (lo <=? ord c) && (ord c <=? hi).

(** [str.isspace] on one character, which is also the class [\s] of [re]
    for [str] patterns: U+0009..U+000D, U+001C..U+0020, U+0085, U+00A0. *)
Definition isspace (c : ascii) : bool :=
  in_range 9 13 c || in_range 28 32 c || (ord c =? 133) || (ord c =? 160).

(** The class [\w] of [re] for [str] patterns: alphanumeric or underscore. *)
Definition isword (c : ascii) : bool :=
  in_range 48 57 c || in_range 65 90 c || (ord c =? 95) || in_range 97 122 c
  || (ord c =? 170) || in_range 178 179 c || (ord c =? 181)
  || in_range 185 186 c || in_range 188 190 c
  || in_range 192 214 c || in_range 216 246 c || in_range 248 255 c.

(** [str.lower] on one character. *)
Definition lower (c : ascii) : ascii :=
  if in_range 65 90 c || (in_range 192 222 c && negb (ord c =? 215))
  then ascii_of_nat (ord c + 32) else c.

Definition eqc (a b : ascii) : bool := Ascii.eqb a b.

(** The double quote and the line feed, which string literals here avoid. *)
Definition dquote : string := String (ascii_of_nat 34) "".
Definition LF : ascii := ascii_of_nat 10.

Fixpoint take (n : nat) (s : string) : string :=
  match n, s with
  | S n', String c s' => String c (take n' s')
  | _, _ => ""
  end.

Fixpoint drop (n : nat) (s : string) : string :=
  match n, s with
  | S n', String _ s' => drop n' s'
  | _, _ => s
  end.

(** [s[i:j]] for indices [0 <= i], [0 <= j]. *)
Definition slice (s : string) (i j : nat) : string := take (j - i) (drop i s).

(** [s[:-k]] for [k > 0]. *)
Definition drop_last (s : string) (k : nat) : string :=
  take (String.length s - k) s.

(** [s.startswith(p)] *)
Fixpoint startswith (p s : string) : bool :=
  match p, s with
  | "", _ => true
  | String a p', String b s' => eqc a b && startswith p' s'
  | String _ _, "" => false
  end.

(** [s.startswith(p, i)] *)
Definition startswith_at (p s : string) (i : nat) : bool :=
  (i <=? String.length s) && startswith p (drop i s).

(** Index of the first occurrence of [sub] in [s], counted from [s]'s start. *)
Fixpoint find (sub s : string) : option nat :=
  if startswith sub s then Some 0
  else match s with
       | "" => None
       | String _ s' => option_map S (find sub s')
       end.

(** [sub in s] *)
Definition contains (sub s : string) : bool :=
  match find sub s with Some _ => true | None => false end.

(** [s.find(c, i)] for a one-character [c]: [None] stands for [-1]. *)
Definition find_char_from (c : ascii) (s : string) (i : nat) : option nat :=
  option_map (fun k => i + k) (find (String c "") (drop i s)).

(** Index of the last character of [s] satisfying [p]. *)
Fixpoint rfind_by (p : ascii -> bool) (s : string) : option nat :=
  match s with
  | "" => None
  | String c s' =>
      match rfind_by p s' with
      | Some k => Some (S k)
      | None => if p c then Some 0 else None
      end
  end.

(** [s.rfind(c, i)] for a one-character [c] and [i <= len(s)]. *)
Definition rfind_char_from (c : ascii) (s : string) (i : nat) : option nat :=
  option_map (fun k => i + k) (rfind_by (eqc c) (drop i s)).

(** Whether some character of [s] satisfies [p]. *)
Fixpoint any (p : ascii -> bool) (s : string) : bool :=
  match s with
  | "" => false
  | String c s' => p c || any p s'
  end.

Fixpoint all (p : ascii -> bool) (s : string) : bool :=
  match s with
  | "" => true
  | String c s' => p c && all p s'
  end.

Fixpoint lstrip_by (p : ascii -> bool) (s : string) : string :=
  match s with
  | String c s' => if p c then lstrip_by p s' else s
  | "" => ""
  end.

Fixpoint rstrip_by (p : ascii -> bool) (s : string) : string :=
  match s with
  | String c s' =>
      match rstrip_by p s' with
      | "" => if p c then "" else String c ""
      | t => String c t
      end
  | "" => ""
  end.

(** [s.strip()] *)
Definition strip (s : string) : string := rstrip_by isspace (lstrip_by isspace s).

(** [s.strip(chars)] *)
Definition strip_chars (chars s : string) : string :=
  let p c := any (eqc c) chars in rstrip_by p (lstrip_by p s).

(** [sep.join(parts)] *)
Fixpoint join (sep : string) (parts : list string) : string :=
  match parts with
  | [] => ""
  | [x] => x
  | x :: rest => x ++ sep ++ join sep rest
  end.

(** [s.replace(old, new)]: every non-overlapping occurrence of [old], leftmost
    first.  [skip] counts the characters of an occurrence still to be passed
    over.  With an empty [old], [new] goes before every character and at the
    end. *)
Fixpoint replace_from (old new : string) (skip : nat) (s : string) : string :=
  match skip with
  | S k => match s with
           | String _ s' => replace_from old new k s'
           | "" => ""
           end
  | 0 => match s with
         | "" => match old with "" => new | _ => "" end
         | String c s' =>
             match old with
             | "" => new ++ String c (replace_from old new 0 s')
             | String _ old' =>
                 if startswith old s
                 then new ++ replace_from old new (String.length old') s'
                 else String c (replace_from old new 0 s')
             end
         end
  end.

Definition replace (old new s : string) : string := replace_from old new 0 s.

(** [s.partition(sep)] for a non-empty [sep]. *)
Definition partition (sep s : string) : string * string * string :=
  match find sep s with
  | Some i => (take i s, sep, drop (i + String.length sep) s)
  | None => (s, "", "")
  end.

End Str.

(** ** The fragment of Python's [re] that the module's patterns use

    A backtracking matcher in continuation-passing style: alternatives are
    tried in priority order (left branch first, longest repetition first),
    which is the order in which [re] explores them.  Repetition is over
    one-character classes, the only kind the patterns contain. *)

Module Re.

Inductive regex : Type :=
| Eps                                  (* the empty pattern *)
| Chr (p : ascii -> bool)              (* one character of a class *)
| Seq (r1 r2 : regex)                  (* r1 r2 *)
| Alt (r1 r2 : regex)                  (* r1|r2 *)
| Opt (r : regex)                      (* r? *)
| Star (p : ascii -> bool)             (* [class]* *)
| Plus (p : ascii -> bool)             (* [class]+ *)
| Group (n : nat) (r : regex)          (* capturing group number n *)
| WordB                                (* \b *)
| Dollar.                              (* $ *)

(** The groups captured so far. *)
Definition captures : Type := nat -> option string.

Definition no_captures : captures := fun _ => None.

Definition set_group (n : nat) (v : string) (c : captures) : captures :=
  fun m => if Nat.eqb m n then Some v else c m.

(** The part of [s] in front of its suffix [rest]. *)
Definition consumed (s rest : string) : string :=
  Str.take (String.length s - String.length rest) s.

Definition orelse {A : Type} (x y : option A) : option A :=
  match x with Some r => Some r | None => y end.

Definition isword_opt (c : option ascii) : bool :=
  match c with Some a => Str.isword a | None => false end.

Definition head (s : string) : option ascii :=
  match s with String a _ => Some a | "" => None end.

(** [\b]: exactly one of the characters around the position is a word
    character ([prev] is the character before it, [s] the text after). *)
Definition at_boundary (prev : option ascii) (s : string) : bool :=
  xorb (isword_opt prev) (isword_opt (head s)).

(** [$]: the end of the text, or just before a line feed that ends it. *)
Definition at_end (s : string) : bool :=
  match s with
  | "" => true
  | String a "" => Str.eqc a Str.LF
  | _ => false
  end.

Section Matcher.
Context {A : Type}.

(** Greedy [class]*: take as many characters as possible, give back one at a
    time while the continuation fails. *)
Fixpoint star (p : ascii -> bool) (prev : option ascii) (s : string)
    (k : option ascii -> string -> option A) : option A :=
  match s with
  | String a s' =>
      if p a then orelse (star p (Some a) s' k) (k prev s) else k prev s
  | "" => k prev s
  end.

Fixpoint run (r : regex) (prev : option ascii) (s : string) (c : captures)
    (k : option ascii -> string -> captures -> option A) : option A :=
  match r with
  | Eps => k prev s c
  | Chr p =>
      match s with
      | String a s' => if p a then k (Some a) s' c else None
      | "" => None
      end
  | Seq r1 r2 => run r1 prev s c (fun prev' s' c' => run r2 prev' s' c' k)
  | Alt r1 r2 => orelse (run r1 prev s c k) (run r2 prev s c k)
  | Opt r1 => orelse (run r1 prev s c k) (k prev s c)
  | Star p => star p prev s (fun prev' s' => k prev' s' c)
  | Plus p =>
      match s with
      | String a s' =>
          if p a then star p (Some a) s' (fun prev' s' => k prev' s' c) else None
      | "" => None
      end
  | Group n r1 =>
      run r1 prev s c
        (fun prev' s' c' => k prev' s' (set_group n (consumed s s') c'))
  | WordB => if at_boundary prev s then k prev s c else None
  | Dollar => if at_end s then k prev s c else None
  end.

End Matcher.

(** A match object: where the match starts and ends, and its groups. *)
Record match_obj : Type := MatchObj {
  m_start : nat;
  m_end : nat;
  m_groups : captures
}.

(** [r.match] at position [i] of a text, [s] being the text from [i] on and
    [prev] the character before [i]. *)
Definition match_at (r : regex) (prev : option ascii) (i : nat) (s : string)
  : option match_obj :=
  run r prev s no_captures
    (fun _ rest c =>
       Some (MatchObj i (i + (String.length s - String.length rest)) c)).

(** [re.search]: the match at the leftmost position that has one. *)
Fixpoint search_from (r : regex) (prev : option ascii) (i : nat) (s : string)
  : option match_obj :=
  match match_at r prev i s with
  | Some m => Some m
  | None =>
      match s with
      | String a s' => search_from r (Some a) (S i) s'
      | "" => None
      end
  end.

Definition search (r : regex) (s : string) : option match_obj :=
  search_from r None 0 s.

(** The character in front of position [pos] of [text]. *)
Definition char_before (text : string) (pos : nat) : option ascii :=
  match pos with
  | 0 => None
  | S q => head (Str.drop q text)
  end.

(** [r.match(text, pos)] and [r.search(text, pos)] *)
Definition match_pos (r : regex) (text : string) (pos : nat) : option match_obj :=
  match_at r (char_before text pos) pos (Str.drop pos text).

Definition search_pos (r : regex) (text : string) (pos : nat) : option match_obj :=
  search_from r (char_before text pos) pos (Str.drop pos text).

(** [m.group(n)] *)
Definition group (m : match_obj) (n : nat) : option string := m_groups m n.

(** *** Building patterns *)

(** A literal character; under [re.IGNORECASE] it matches when the lowercase
    forms agree. *)
Definition lit (ignorecase : bool) (a : ascii) : regex :=
  Chr (fun x => if ignorecase then Str.eqc (Str.lower x) (Str.lower a)
                else Str.eqc x a).

(** A literal string. *)
Fixpoint lits (ignorecase : bool) (s : string) : regex :=
  match s with
  | "" => Eps
  | String a "" => lit ignorecase a
  | String a s' => Seq (lit ignorecase a) (lits ignorecase s')
  end.

(** A set [[...]] given by its members; under [re.IGNORECASE] a character
    belongs to it when either of its case forms does. *)
Definition one_of (ignorecase : bool) (members : string) (x : ascii) : bool :=
  Str.any (Str.eqc x) members
  || (ignorecase && Str.any (fun a => Str.eqc (Str.lower x) (Str.lower a)) members).

Fixpoint seq (rs : list regex) : regex :=
  match rs with
  | [] => Eps
  | [r] => r
  | r :: rest => Seq r (seq rest)
  end.

End Re.

(** ** The broadcast pattern *)

(** The set [[\*\s\w-]] of the colour group. *)
Definition color_class (x : ascii) : bool :=
  Str.eqc x "*" || Str.isspace x || Str.isword x || Str.eqc x "-".

(** [DORMSPAM_PATTERN], compiled with [flags=re.IGNORECASE]:
[[
  \b[bB]cc[’'`-]?e?d\s+to\s+(all\s+)?(?:dorms|dormspam)[;,.]?\s+([\*\s\w-]+)\s+for bc-talk\b
]]
    The member U+2019 of the second set lies outside the modelled code
    points, so no modelled text contains it. *)
Definition DORMSPAM_PATTERN : Re.regex :=
  let i := true in
  Re.seq
    [ Re.WordB;
      Re.Chr (Re.one_of i "bB"); Re.lits i "cc";
      Re.Opt (Re.Chr (Re.one_of i "'`-"));
      Re.Opt (Re.lit i "e"); Re.lit i "d";
      Re.Plus Str.isspace; Re.lits i "to"; Re.Plus Str.isspace;
      Re.Opt (Re.Group 1 (Re.Seq (Re.lits i "all") (Re.Plus Str.isspace)));
      Re.Alt (Re.lits i "dorms") (Re.lits i "dormspam");
      Re.Opt (Re.Chr (Re.one_of i ";,."));
      Re.Plus Str.isspace;
      Re.Group 2 (Re.Plus color_class);
      Re.Plus Str.isspace;
      Re.lits i "for bc-talk";
      Re.WordB ].

Definition DORMSPAM_PATTERN_COLOR_GROUP : nat := 2.

(** The body of [Email.color], given the plaintext. *)
Definition color_of (plaintext : string) : option string :=
  match Re.search DORMSPAM_PATTERN plaintext with
  | Some m => Re.group m DORMSPAM_PATTERN_COLOR_GROUP
  | None => None
  end.

(** ** Exceptions *)

Inductive exn : Type :=
| EmailMissingHeaders (msg : string)     (* raised by [eat] *)
| ValueError (msg : string)              (* raised by [datetime.strptime] *)
| AssertionError
| IndexError
| LibraryError (cls : string).           (* any exception of a collaborator *)

Definition result (A : Type) : Type := exn + A.

Definition ret {A : Type} (x : A) : result A := inr x.
Definition raise {A : Type} (e : exn) : result A := inl e.

Definition bind {A B : Type} (m : result A) (f : A -> result B) : result B :=
  match m with
  | inl e => inl e
  | inr x => f x
  end.

Notation "'let*' x ':=' m 'in' k" := (bind m (fun x => k))
  (at level 10, x pattern, m at level 100, k at level 200).

(** ** [html.parser.HTMLParser] and the converter built on it

    [HTML2TextConverter] overrides four handlers of the standard library's
    [HTMLParser]; [html2text] feeds it the document once and never calls
    [close()].  The driver [goahead] is modelled as CPython 3.11 has it.
    Its recognisers of markup that starts with [<], and the table-driven
    substitution inside [html.unescape], are collaborators. *)

(** What a recogniser tells the subclass. *)
Inductive event : Type :=
| StartTag (tag : string) (attrs : list (string * option string))
| StartEndTag (tag : string) (attrs : list (string * option string))
| EndTag (tag : string)
| Data (data : string)
| Comment (data : string)
| Decl (data : string)
| Pi (data : string)
| UnknownDecl (data : string).

(** The outcome of [parse_starttag(i)] and its siblings: [Incomplete] is a
    negative return value; [Scanned evs k cdata] is the handler calls made,
    the position [k] returned and the value [cdata_elem] is left with. *)
Inductive scan : Type :=
| Incomplete
| Scanned (evs : list event) (k : nat) (cdata : option string).

Class HtmlLib : Type := {
  (** [_charref.sub(_replace_charref, s)] of [html.unescape] *)
  charref_sub : string -> string;
  (** the recognisers, applied to [rawdata], a position and [cdata_elem] *)
  parse_starttag : string -> nat -> option string -> scan;
  parse_endtag : string -> nat -> option string -> scan;
  parse_comment : string -> nat -> option string -> scan;
  parse_pi : string -> nat -> option string -> scan;
  parse_html_declaration : string -> nat -> option string -> scan
}.

(** [html.unescape] *)
Definition unescape {html_lib : HtmlLib} (s : string) : string :=
  if negb (Str.contains "&" s) then s else charref_sub s.

Definition ascii_alpha (c : ascii) : bool :=
  Str.in_range 65 90 c || Str.in_range 97 122 c.
Definition ascii_digit (c : ascii) : bool := Str.in_range 48 57 c.
Definition ascii_alnum (c : ascii) : bool := ascii_alpha c || ascii_digit c.
Definition ascii_hex (c : ascii) : bool :=
  ascii_digit c || Str.in_range 65 70 c || Str.in_range 97 102 c.

(** [interesting_normal = re.compile('[&<]')] *)
Definition interesting_normal : Re.regex := Re.Chr (Re.one_of false "&<").
(** [incomplete = re.compile('&[a-zA-Z#]')] *)
Definition incomplete : Re.regex :=
  Re.Seq (Re.lit false "&") (Re.Chr (fun c => ascii_alpha c || Str.eqc c "#")).
(** [entityref = re.compile('&(NAME)[^a-zA-Z0-9]')], where the group [NAME]
    is [[a-zA-Z][-.a-zA-Z0-9]*]. *)
Definition entityref : Re.regex :=
  Re.seq
    [ Re.lit false "&";
      Re.Group 1
        (Re.Seq (Re.Chr ascii_alpha)
                (Re.Star (fun c => Re.one_of false "-." c || ascii_alnum c)));
      Re.Chr (fun c => negb (ascii_alnum c)) ].
(** [charref = re.compile('&#(?:[0-9]+|[xX][0-9a-fA-F]+)[^0-9a-fA-F]')] *)
Definition charref : Re.regex :=
  Re.seq
    [ Re.lits false "&#";
      Re.Alt (Re.Plus ascii_digit)
             (Re.Seq (Re.Chr (Re.one_of false "xX")) (Re.Plus ascii_hex));
      Re.Chr (fun c => negb (ascii_hex c)) ].
(** [starttagopen = re.compile('<[a-zA-Z]')] *)
Definition starttagopen : Re.regex :=
  Re.Seq (Re.lit false "<") (Re.Chr ascii_alpha).
(** [re.compile(r'</\s*%s\s*>' % self.cdata_elem, re.I)], set by
    [set_cdata_mode] for the elements [script] and [style]. *)
Definition interesting_cdata (elem : string) : Re.regex :=
  Re.seq
    [ Re.lits true "</"; Re.Star Str.isspace; Re.lits true elem;
      Re.Star Str.isspace; Re.lit true ">" ].

Record HTML2TextConverter : Type := mkConverter {
  convert_charrefs : bool;
  rawdata : string;
  cdata_elem : option string;
  text_parts : list string
}.

Definition with_text_parts (parts : list string) (self : HTML2TextConverter) :=
  mkConverter (convert_charrefs self) (rawdata self) (cdata_elem self) parts.
Definition with_cdata_elem (c : option string) (self : HTML2TextConverter) :=
  mkConverter (convert_charrefs self) (rawdata self) c (text_parts self).
Definition with_rawdata (r : string) (self : HTML2TextConverter) :=
  mkConverter (convert_charrefs self) r (cdata_elem self) (text_parts self).

(** [self.text_parts.append(x)] *)
Definition append_part (x : string) (self : HTML2TextConverter) :=
  with_text_parts (text_parts self ++ [x]) self.

(** The class attribute [entities]. *)
Definition entities : gmap string string :=
  list_to_map
    [ ("nbsp", " "); ("lt", "<"); ("gt", ">"); ("amp", "&");
      ("quot", Str.dquote); ("apos", "'") ].

Definition handle_starttag (tag : string) (attrs : list (string * option string))
    (self : HTML2TextConverter) : HTML2TextConverter :=
  if String.eqb tag "br" then append_part (String Str.LF "") self else self.

Definition handle_endtag (tag : string) (self : HTML2TextConverter)
  : HTML2TextConverter :=
  if existsb (String.eqb tag) ["p"; "div"; "li"; "h1"; "h2"; "h3"; "h4"; "h5"; "h6"]
  then append_part (String Str.LF "") self else self.

Definition handle_data (data : string) (self : HTML2TextConverter)
  : HTML2TextConverter :=
  append_part data self.

Definition handle_entityref (name : string) (self : HTML2TextConverter)
  : HTML2TextConverter :=
  append_part (default "" (entities !! name)) self.

(** Not overridden: [HTMLParser.handle_charref] does nothing. *)
Definition handle_charref (name : string) (self : HTML2TextConverter)
  : HTML2TextConverter := self.

(** Not overridden: [HTMLParser.handle_startendtag]. *)
Definition handle_startendtag (tag : string) (attrs : list (string * option string))
    (self : HTML2TextConverter) : HTML2TextConverter :=
  handle_endtag tag (handle_starttag tag attrs self).

Definition get_text (self : HTML2TextConverter) : string :=
  Str.strip (Str.join "" (text_parts self)).

(** The handler call an [event] stands for; comments, declarations and
    processing instructions reach handlers that do nothing. *)
Definition dispatch (self : HTML2TextConverter) (e : event) : HTML2TextConverter :=
  match e with
  | StartTag tag attrs => handle_starttag tag attrs self
  | StartEndTag tag attrs => handle_startendtag tag attrs self
  | EndTag tag => handle_endtag tag self
  | Data d => handle_data d self
  | Comment _ | Decl _ | Pi _ | UnknownDecl _ => self
  end.

(** One turn of the [while i < n] loop of [goahead(end=0)]. *)
Inductive turn : Type :=
| Continue (self : HTML2TextConverter) (i : nat)
| Break (self : HTML2TextConverter) (i : nat).

Definition after_scan (self : HTML2TextConverter) (i : nat) (r : scan) : turn :=
  match r with
  | Incomplete => Break self i                             (* k < 0 and not end *)
  | Scanned evs k cdata =>
      Continue (with_cdata_elem cdata (fold_left dispatch evs self)) k
  end.

Definition is_found {A : Type} (o : option A) : bool :=
  match o with Some _ => true | None => false end.

Section Goahead.
Context {html_lib : HtmlLib}.

(** Where the text in front of the next construct ends: the value of [j]
    after the first [if] of the loop body, [None] when the loop breaks. *)
Definition text_end (self : HTML2TextConverter) (i : nat) : option nat :=
  let rawdata := rawdata self in
  let n := String.length rawdata in
  if convert_charrefs self && negb (is_found (cdata_elem self)) then
    match Str.find_char_from "<" rawdata i with
    | Some j => Some j
    | None =>
        match Str.rfind_char_from "&" rawdata (Nat.max i (n - 34)) with
        | Some amppos =>
            if negb (is_found
                       (Re.search_pos
                          (Re.Chr (fun c => Str.isspace c || Str.eqc c ";"))
                          rawdata amppos))
            then None                      (* wait till we get all the text *)
            else Some n
        | None => Some n
        end
    end
  else
    let interesting :=
      match cdata_elem self with
      | Some elem => interesting_cdata elem
      | None => interesting_normal
      end in
    match Re.search_pos interesting rawdata i with
    | Some m => Some (Re.m_start m)
    | None => if is_found (cdata_elem self) then None else Some n
    end.

(** The branch [if startswith('<', i)] of the loop body. *)
Definition markup_turn (self : HTML2TextConverter) (i : nat) : turn :=
  let rawdata := rawdata self in
  let n := String.length rawdata in
  let startswith p := Str.startswith_at p rawdata i in
  if is_found (Re.match_pos starttagopen rawdata i) then
    after_scan self i (parse_starttag rawdata i (cdata_elem self))
  else if startswith "</" then
    after_scan self i (parse_endtag rawdata i (cdata_elem self))
  else if startswith "<!--" then
    after_scan self i (parse_comment rawdata i (cdata_elem self))
  else if startswith "<?" then
    after_scan self i (parse_pi rawdata i (cdata_elem self))
  else if startswith "<!" then
    after_scan self i (parse_html_declaration rawdata i (cdata_elem self))
  else if i + 1 <? n then
    Continue (handle_data "<" self) (i + 1)
  else Break self i.

(** The branch [elif startswith("&#", i)]. *)
Definition charref_turn (self : HTML2TextConverter) (i : nat) : turn :=
  let rawdata := rawdata self in
  match Re.match_pos charref rawdata i with
  | Some m =>
      let name := Str.slice rawdata (i + 2) (Re.m_end m - 1) in
      let self := handle_charref name self in
      let k := Re.m_end m in
      let k := if negb (Str.startswith_at ";" rawdata (k - 1)) then k - 1 else k in
      Continue self k
  | None =>
      if Str.contains ";" (Str.drop i rawdata)
      then Break (handle_data (Str.slice rawdata i (i + 2)) self) (i + 2)
      else Break self i
  end.

(** The branch [elif startswith('&', i)]. *)
Definition entityref_turn (self : HTML2TextConverter) (i : nat) : turn :=
  let rawdata := rawdata self in
  let n := String.length rawdata in
  match Re.match_pos entityref rawdata i with
  | Some m =>
      let name := default "" (Re.group m 1) in
      let self := handle_entityref name self in
      let k := Re.m_end m in
      let k := if negb (Str.startswith_at ";" rawdata (k - 1)) then k - 1 else k in
      Continue self k
  | None =>
      if is_found (Re.match_pos incomplete rawdata i) then Break self i
      else if i + 1 <? n then Continue (handle_data "&" self) (i + 1)
      else Break self i
  end.

(** The loop body, entered with [i < n]. *)
Definition goahead_turn (self : HTML2TextConverter) (i : nat) : turn :=
  let rawdata := rawdata self in
  let n := String.length rawdata in
  match text_end self i with
  | None => Break self i
  | Some j =>
      let self :=
        if i <? j then
          if convert_charrefs self && negb (is_found (cdata_elem self))
          then handle_data (unescape (Str.slice rawdata i j)) self
          else handle_data (Str.slice rawdata i j) self
        else self in
      let i := j in
      if i =? n then Break self i
      else if Str.startswith_at "<" rawdata i then markup_turn self i
      else if Str.startswith_at "&#" rawdata i then charref_turn self i
      else if Str.startswith_at "&" rawdata i then entityref_turn self i
      else Break self i       (* assert 0: the search stops at '<' or '&' *)
  end.

(** [while i < n]: every turn that continues moves [i] forward, so
    [len(rawdata)] turns are enough; [fuel] bounds them. *)
Fixpoint goahead_loop (fuel : nat) (self : HTML2TextConverter) (i : nat)
  : HTML2TextConverter * nat :=
  match fuel with
  | 0 => (self, i)
  | S fuel' =>
      if i <? String.length (rawdata self) then
        match goahead_turn self i with
        | Continue self' i' => goahead_loop fuel' self' i'
        | Break self' i' => (self', i')
        end
      else (self, i)
  end.

(** [goahead(0)]; what was not handled stays in [rawdata]. *)
Definition goahead (self : HTML2TextConverter) : HTML2TextConverter :=
  let '(self', i) := goahead_loop (String.length (rawdata self)) self 0 in
  with_rawdata (Str.drop i (rawdata self')) self'.

(** [HTMLParser.feed] *)
Definition feed (data : string) (self : HTML2TextConverter) : HTML2TextConverter :=
  goahead (with_rawdata (rawdata self ++ data) self).

(** [HTML2TextConverter()]: [HTMLParser.__init__(self)] leaves
    [convert_charrefs] at its default, [True]. *)
Definition new_converter : HTML2TextConverter :=
  mkConverter true "" None [].

Definition html2text (html : string) : string :=
  let parser := new_converter in
  let parser := feed html parser in
  get_text parser.

(** The converter as it would run with [convert_charrefs=False], the mode in
    which [HTMLParser] calls [handle_entityref]. *)
Definition html2text_charrefs_off (html : string) : string :=
  get_text (feed html (mkConverter false "" None [])).

End Goahead.

(** ** The data model *)

Record EmailAddress : Type := mkEmailAddress {
  username : string;
  domain : string
}.

(** [EmailAddress.__str__] *)
Definition EmailAddress_str (a : EmailAddress) : string :=
  username a ++ "@" ++ domain a.

Record Contact : Type := mkContact {
  email : EmailAddress;
  name : option string
}.

(** A [datetime.datetime] with an optional UTC offset in seconds. *)
(** [Contact.__str__] *)
Definition Contact_str (c : Contact) : string :=
  let email_part := "<" ++ EmailAddress_str (email c) ++ ">" in
  if negb (match name c with Some n => negb (String.eqb n "") | None => false end)
  then email_part
  else default "" (name c) ++ " " ++ email_part.

Record datetime : Type := mkDatetime {
  year : nat; month : nat; day : nat;
  hour : nat; minute : nat; second : nat;
  utcoffset : option Z
}.

Record Email : Type := mkEmail {
  sent : datetime;
  sender : Contact;
  subject : string;
  thread_topic : option string;
  content : gmap string string;
  to : option Contact;
  message_id : string
}.

(** Python truth values: an empty string, an empty list and [None] are false. *)
Class Truthy (A : Type) : Type := truthy : A -> bool.

#[global] Instance string_truthy : Truthy string :=
  fun s => negb (String.eqb s "").
#[global] Instance list_truthy {A : Type} : Truthy (list A) :=
  fun l => match l with [] => false | _ :: _ => true end.
#[global] Instance datetime_truthy : Truthy (option datetime) :=
  fun d => is_found d.
#[global] Instance optional_string_truthy : Truthy (option string) :=
  fun o => match o with Some s => truthy s | None => false end.

Section Derived.
Context {html_lib : HtmlLib}.

(** [Email.plaintext] *)
Definition plaintext (e : Email) : string :=
  match content e !! "text/plain" with
  | Some plain => plain
  | None =>
      match content e !! "text/html" with
      | Some html => html2text html
      | None => ""
      end
  end.

(** [Email.color] *)
Definition color (e : Email) : option string := color_of (plaintext e).

(** [Email.dormspam] *)
Definition dormspam (e : Email) : bool := truthy (color e).

End Derived.

(** ** Header digestion *)

(** [nibble]: the list [headers_not_found], when one is passed, is returned
    with the name of a missing header appended. *)
Definition nibble {A : Type} `{Truthy A} (header_name : string) (header_data : A)
    (headers_not_found : option (list string))
  : option A * option (list string) :=
  if truthy header_data then (Some header_data, headers_not_found)
  else
    match headers_not_found with
    | Some l => (None, Some (l ++ [header_name])%list)
    | None => (None, None)
    end.

Class TimeLib : Type := {
  (** [datetime.datetime.strptime(date_string, format)] *)
  strptime : string -> string -> result datetime
}.

Definition parse_date {time_lib : TimeLib} (date : string) : result datetime :=
  let fmt := "%a, %d %b %Y %H:%M:%S %z" in
  match strptime date fmt with
  | inr sent => ret sent
  | inl (ValueError msg) =>
      let extra := snd (Str.partition "unconverted data remains: " msg) in
      if negb (truthy extra) then raise (ValueError msg)
      else strptime (Str.drop_last date (String.length extra)) fmt
  | inl e => raise e
  end.

(** ** The raw mail object *)

(** One entry of [MailParser.attachments]. *)
Record Attachment : Type := mkAttachment {
  content_id : string;                          (* attachment["content-id"] *)
  content_transfer_encoding : option string;    (* .get("content_transfer_encoding") *)
  payload : string                              (* attachment["payload"] *)
}.

Definition ContactsType : Type := list (string * string).

(** What [eat] reads of a [mailparser.MailParser]. *)
Module MailParser.
Record t : Type := mk {
  message_id : string;
  date : option datetime;
  from_ : ContactsType;
  subject : string;
  to : ContactsType;
  headers : gmap string string;
  text_plain : list string;
  text_html : list string;
  attachments : list Attachment
}.
End MailParser.

Class MailLib : Type := {
  (** [mailparser.parse_from_string] *)
  parse_from_string : string -> MailParser.t;
  (** The [Parser[EmailAddress]] instance built at module level from the
      class of [utils/parser.py]. *)
  _parser_email_address : string -> result EmailAddress
}.

(** ** The image compressor *)

Definition COMPRESSED_IMAGE_WIDTH : nat := 600.

(** The calls of [compress_image] into [base64] and Pillow. *)
Class ImageLib : Type := {
  image : Type;
  b64decode : string -> result string;
  b64encode : string -> string;
  Image_open : string -> result image;
  Image_size : image -> nat * nat;
  (** [int(float(height) * float(width_target / float(width)))] *)
  scaled_height : nat -> nat -> nat -> result nat;
  (** [img.resize(size, Image.Resampling.LANCZOS)] *)
  Image_resize : image -> nat * nat -> result image;
  (** the bytes written by [img.save(buffer, optimize=True, quality=80, format='PNG')] *)
  Image_save_png : image -> result string
}.

Definition compress_image {image_lib : ImageLib} (original_image : string)
  : result string :=
  let* decoded := b64decode original_image in
  let* img := Image_open decoded in
  let* hsize :=
    scaled_height COMPRESSED_IMAGE_WIDTH (fst (Image_size img)) (snd (Image_size img)) in
  let* img := Image_resize img (COMPRESSED_IMAGE_WIDTH, hsize) in
  let* output := Image_save_png img in
  ret (b64encode output).

(** ** [repr] of a string *)

Definition hex_digit (n : nat) : ascii :=
  if n <? 10 then ascii_of_nat (48 + n) else ascii_of_nat (87 + n).

Definition hex_escape (c : ascii) : string :=
  "\x" ++ String (hex_digit (Str.ord c / 16)) (String (hex_digit (Str.ord c mod 16)) "").

(** [str.isprintable] on one character. *)
Definition isprintable (c : ascii) : bool :=
  Str.in_range 32 126 c || (Str.in_range 161 255 c && negb (Str.ord c =? 173)).

Definition repr_char (quote c : ascii) : string :=
  if Str.eqc c quote || Str.eqc c "\" then String "\" (String c "")
  else if Str.ord c =? 9 then "\t"
  else if Str.ord c =? 10 then "\n"
  else if Str.ord c =? 13 then "\r"
  else if isprintable c then String c ""
  else hex_escape c.

Fixpoint repr_body (quote : ascii) (s : string) : string :=
  match s with
  | "" => ""
  | String c s' => repr_char quote c ++ repr_body quote s'
  end.

Definition repr (s : string) : string :=
  let quote : ascii :=
    if Str.contains "'" s && negb (Str.contains Str.dquote s)
    then ascii_of_nat 34 else "'"%char in
  String quote (repr_body quote s ++ String quote "").

(** ** Digestion *)

Section Eat.
Context {mail_lib : MailLib} {image_lib : ImageLib}.

(** The body of the [for] loop over the attachments, plaintext variant. *)
Definition plain_body (content : gmap string string) (attachment : Attachment)
  : gmap string string :=
  let cid := Str.strip_chars "<>" (content_id attachment) in
  if truthy cid then
    let before := "[cid:" ++ cid ++ "]" in
    let after := "" in
    <["text/plain" := Str.replace before after (content !!! "text/plain")]> content
  else content.

(** The body of the [for] loop over the attachments, HTML variant. *)
Definition html_body (content : gmap string string) (attachment : Attachment)
  : result (gmap string string) :=
  let cid := Str.strip_chars "<>" (content_id attachment) in
  if truthy cid then
    let cte :=
      if truthy (content_transfer_encoding attachment)
      then default "" (content_transfer_encoding attachment)
      else "base64" in
    let before := "src=" ++ Str.dquote ++ "cid:" ++ cid ++ Str.dquote in
    let payload_fixed := Str.replace (String Str.LF "") "" (payload attachment) in
    let* payload_compressed := compress_image payload_fixed in
    let after :=
      "src=" ++ Str.dquote ++ "data:image/png;" ++ cte ++ ","
             ++ payload_compressed ++ Str.dquote in
    ret (<["text/html" := Str.replace before after (content !!! "text/html")]> content)
  else ret content.

(** A [for] loop whose body may raise. *)
Fixpoint for_each {S X : Type} (body : S -> X -> result S) (xs : list X) (s : S)
  : result S :=
  match xs with
  | [] => ret s
  | x :: rest => let* s' := body s x in for_each body rest s'
  end.

(** [assert(x is not None)] *)
Definition assert_not_none {A : Type} (x : option A) : result A :=
  match x with
  | Some v => ret v
  | None => raise AssertionError
  end.

(** [eat] from its second statement on: [email] is the parsed mail. *)
Definition digest (mail : MailParser.t) : result Email :=
  (* keep track of what couldn't be found *)
  let headers_not_found := Some [] in
  let '(message_id, headers_not_found) :=
    nibble "Message-ID" (MailParser.message_id mail) headers_not_found in
  let '(sent, headers_not_found) :=
    nibble "Date" (MailParser.date mail) headers_not_found in
  let '(sender, headers_not_found) :=
    nibble "From" (MailParser.from_ mail) headers_not_found in
  let '(subject, headers_not_found) :=
    nibble "Subject" (MailParser.subject mail) headers_not_found in
  let '(to, _) := nibble "To" (MailParser.to mail) None in
  let headers_not_found := default [] headers_not_found in
  if truthy headers_not_found then
    let headers := Str.join ", " (map repr headers_not_found) in
    let msg := "failed to parse: " ++ headers in
    raise (EmailMissingHeaders msg)
  else
  let thread_topic := MailParser.headers mail !! "Thread-Topic" in
  let* message_id := assert_not_none message_id in
  let* sent := assert_not_none (mjoin sent) in
  let* subject := assert_not_none subject in
  let* sender := assert_not_none sender in
  (* the first contact listed in "From:" and "To:" *)
  let* (first_sender_name, first_sender_email) :=
    match sender with
    | first :: _ => ret first
    | [] => raise IndexError
    end in
  let* (first_to_name, first_to_email) :=
    match to with
    | None => ret (None, None)
    | Some (first :: _) => ret (Some (fst first), Some (snd first))
    | Some [] => raise IndexError
    end in
  let* sender_address := _parser_email_address first_sender_email in
  let sender_contact := mkContact sender_address (Some first_sender_name) in
  let* to_contact :=
    if truthy first_to_name || truthy first_to_email then
      let* to_address := _parser_email_address (default "" first_to_email) in
      ret (Some (mkContact to_address first_to_name))
    else ret None in
  (* parse email body, and process inserted images *)
  let content : gmap string string := ∅ in
  let content :=
    match MailParser.text_plain mail with
    | first :: _ =>
        fold_left plain_body (MailParser.attachments mail)
                  (<["text/plain" := first]> content)
    | [] => content
    end in
  let* content :=
    match MailParser.text_html mail with
    | first :: _ =>
        for_each html_body (MailParser.attachments mail)
                 (<["text/html" := first]> content)
    | [] => ret content
    end in
  ret (mkEmail sent sender_contact subject thread_topic content to_contact message_id).

(** [eat]; the assertion that [email] is a [MailParser] holds by typing. *)
Definition eat (raw : string) : result Email :=
  let email := parse_from_string raw in
  digest email.

End Eat.

(** ** Collaborators used in the examples *)

(** An [HTMLParser] whose recognisers find every construct that opens with
    [<] incomplete and whose reference substitution changes nothing. *)
Definition waiting_html_lib : HtmlLib :=
  {| charref_sub := fun s => s;
     parse_starttag := fun _ _ _ => Incomplete;
     parse_endtag := fun _ _ _ => Incomplete;
     parse_comment := fun _ _ _ => Incomplete;
     parse_pi := fun _ _ _ => Incomplete;
     parse_html_declaration := fun _ _ _ => Incomplete |}.

Definition noon : datetime := mkDatetime 2023 4 1 12 0 0 (Some (-14400)%Z).

(** A [strptime] that knows one timestamp and reports what follows it. *)
Definition one_date_time_lib : TimeLib :=
  {| strptime := fun date fmt =>
       let stamp := "Sat, 01 Apr 2023 12:00:00 -0400" in
       if String.eqb date stamp then ret noon
       else if Str.startswith stamp date
       then raise (ValueError ("unconverted data remains: "
                               ++ Str.drop (String.length stamp) date))
       else raise (ValueError "time data does not match format") |}.

Definition address_local_char (c : ascii) : bool :=
  ascii_alnum c || Re.one_of false "._%+-" c.
Definition address_domain_char (c : ascii) : bool :=
  ascii_alnum c || Re.one_of false ".-" c.

(** The pattern handed to [Parser[EmailAddress]],
[[
  ^(?P<username>[a-zA-Z0-9._%+-]+)@(?P<domain>[a-zA-Z0-9.-]+\.[a-zA-Z]{2,})$
]]
    with its groups [username] and [domain] numbered 1 and 2; [^] is left
    to the caller, who tries the match at position 0. *)
Definition address_pattern : Re.regex :=
  Re.seq
    [ Re.Group 1 (Re.Plus address_local_char);
      Re.lit false "@";
      Re.Group 2
        (Re.seq [ Re.Plus address_domain_char; Re.lit false ".";
                  Re.Chr ascii_alpha; Re.Plus ascii_alpha ]);
      Re.Dollar ].

(** Modelled from the spec: [utils/parser.py], which defines the class
    [Parser], is not among the sources.  Construction of an [EmailAddress]
    fails if the raw string does not match the pattern. *)
Definition spec_parser_email_address (raw : string) : result EmailAddress :=
  match Re.match_pos address_pattern raw 0 with
  | Some m =>
      ret (mkEmailAddress (default "" (Re.group m 1)) (default "" (Re.group m 2)))
  | None => raise (LibraryError "AddressFormatError")
  end.

(** A mail library that finds the same message in every raw text. *)
Definition fixed_mail_lib (mail : MailParser.t) : MailLib :=
  {| parse_from_string := fun _ => mail;
     _parser_email_address := spec_parser_email_address |}.

(** A codec that passes its payload through. *)
Definition transparent_codec : ImageLib :=
  {| image := string;
     b64decode := fun s => ret s;
     b64encode := fun s => s;
     Image_open := fun s => ret s;
     Image_size := fun _ => (COMPRESSED_IMAGE_WIDTH, 1);
     scaled_height := fun _ _ h => ret h;
     Image_resize := fun img _ => ret img;
     Image_save_png := fun img => ret img |}.

(** A codec that recognises no payload as an image. *)
Definition blind_codec : ImageLib :=
  {| image := string;
     b64decode := fun s => ret s;
     b64encode := fun s => s;
     Image_open := fun _ => raise (LibraryError "UnidentifiedImageError");
     Image_size := fun _ => (COMPRESSED_IMAGE_WIDTH, 1);
     scaled_height := fun _ _ h => ret h;
     Image_resize := fun img _ => ret img;
     Image_save_png := fun img => ret img |}.

Definition alice : ContactsType := [("Alice", "alice@mit.edu")].

(** A message with every required header, a plaintext and an HTML body that
    both refer to the attachment [img1]. *)
Definition sample_mail : MailParser.t :=
  MailParser.mk "<id-1@mit.edu>" (Some noon) alice "Tea"
    [("", "dorms@mit.edu")] ∅
    ["See [cid:img1] here"; "second plain part"]
    ["<img src=" ++ Str.dquote ++ "cid:img1" ++ Str.dquote ++ ">"; "second html part"]
    [mkAttachment "<img1>" None ("iVBOR" ++ String Str.LF "w0KGgo=")].

(** A message without Message-ID and Subject. *)
Definition mail_without_id_and_subject : MailParser.t :=
  MailParser.mk "" (Some noon) alice "" [] ∅ ["hello"] [] [].

(** A message whose attachment is neither an image nor referred to. *)
Definition mail_with_stray_attachment : MailParser.t :=
  MailParser.mk "<id-2@mit.edu>" (Some noon) alice "Minutes" [] ∅
    [] ["<p>minutes attached</p>"]
    [mkAttachment "<notes>" (Some "base64") "bm90IGFuIGltYWdl"].

(** A digested broadcast with a plaintext body only. *)
Definition broadcast_email : Email :=
  mkEmail noon (mkContact (mkEmailAddress "alice" "mit.edu") (Some "Alice"))
    "Tea" None
    {[ "text/plain" := "Bcc'd to all dorms; yellow for bc-talk" ]}
    None "<id-3@mit.edu>".

(** ** What a pattern denotes

    [denotes r prev w rest c c'] reads: [r] can match the word [w] when
    [prev] is the character in front of it and [rest] the text behind it,
    turning the captures [c] into [c']. *)

Fixpoint last_of (prev : option ascii) (w : string) : option ascii :=
  match w with
  | "" => prev
  | String a w' => last_of (Some a) w'
  end.

Fixpoint denotes (r : Re.regex) (prev : option ascii) (w rest : string)
    (c c' : Re.captures) : Prop :=
  match r with
  | Re.Eps => w = "" /\ c' = c
  | Re.Chr p => (exists a, w = String a "" /\ p a = true) /\ c' = c
  | Re.Seq r1 r2 =>
      exists w1 w2 c1,
        w = w1 ++ w2 /\ denotes r1 prev w1 (w2 ++ rest) c c1
        /\ denotes r2 (last_of prev w1) w2 rest c1 c'
  | Re.Alt r1 r2 => denotes r1 prev w rest c c' \/ denotes r2 prev w rest c c'
  | Re.Opt r1 => denotes r1 prev w rest c c' \/ (w = "" /\ c' = c)
  | Re.Star p => Str.all p w = true /\ c' = c
  | Re.Plus p => (w <> "" /\ Str.all p w = true) /\ c' = c
  | Re.Group n r1 => exists c1, denotes r1 prev w rest c c1 /\ c' = Re.set_group n w c1
  | Re.WordB => (w = "" /\ Re.at_boundary prev rest = true) /\ c' = c
  | Re.Dollar => (w = "" /\ Re.at_end rest = true) /\ c' = c
  end.

(** The required headers that are absent or empty, in the order in which
    [eat] asks for them. *)
Definition missing_headers (mail : MailParser.t) : list string :=
  ((if truthy (MailParser.message_id mail) then [] else ["Message-ID"])
   ++ (if truthy (MailParser.date mail) then [] else ["Date"])
   ++ (if truthy (MailParser.from_ mail) then [] else ["From"])
   ++ (if truthy (MailParser.subject mail) then [] else ["Subject"]))%list.

(** The marker of an attachment in a plaintext body and in an HTML body. *)
Definition cid_of (a : Attachment) : string := Str.strip_chars "<>" (content_id a).
Definition plain_marker (cid : string) : string := "[cid:" ++ cid ++ "]".
Definition html_marker (cid : string) : string :=
  "src=" ++ Str.dquote ++ "cid:" ++ cid ++ Str.dquote.

(** The inlined image that replaces [html_marker]. *)
Definition data_uri (encoding compressed : string) : string :=
  "src=" ++ Str.dquote ++ "data:image/png;" ++ encoding ++ "," ++ compressed
         ++ Str.dquote.

Definition encoding_of (a : Attachment) : string :=
  match content_transfer_encoding a with
  | Some e => if String.eqb e "" then "base64" else e
  | None => "base64"
  end.

(** The two rewrites as the spec words them, body by body. *)
Definition plain_cleanup (body : string) (a : Attachment) : string :=
  if String.eqb (cid_of a) "" then body
  else Str.replace (plain_marker (cid_of a)) "" body.

Definition html_inlining {image_lib : ImageLib} (body : string) (a : Attachment)
  : result string :=
  if String.eqb (cid_of a) "" then ret body
  else
    let* compressed := compress_image (Str.replace (String Str.LF "") "" (payload a)) in
    ret (Str.replace (html_marker (cid_of a)) (data_uri (encoding_of a) compressed) body).

(** The content mapping that [eat] builds from the body variants and the
    attachments. *)
Definition build_content {image_lib : ImageLib} (mail : MailParser.t)
  : result (gmap string string) :=
  let content : gmap string string := ∅ in
  let content :=
    match MailParser.text_plain mail with
    | first :: _ =>
        fold_left plain_body (MailParser.attachments mail)
                  (<["text/plain" := first]> content)
    | [] => content
    end in
  match MailParser.text_html mail with
  | first :: _ =>
      for_each html_body (MailParser.attachments mail)
               (<["text/html" := first]> content)
  | [] => ret content
  end.

(** Replacing the body variants of a parsed mail. *)
Definition with_bodies (plain html : list string) (mail : MailParser.t)
  : MailParser.t :=
  MailParser.mk (MailParser.message_id mail) (MailParser.date mail)
    (MailParser.from_ mail) (MailParser.subject mail) (MailParser.to mail)
    (MailParser.headers mail) plain html (MailParser.attachments mail).

(** A character that separates words: whitespace or ASCII punctuation. *)
Definition is_separator (c : ascii) : bool :=
  Str.isspace c
  || Str.in_range 33 47 c || Str.in_range 58 64 c
  || Str.in_range 91 96 c || Str.in_range 123 126 c.

(** A phrase that neither begins nor ends with a separator. *)
Definition trimmed (s : string) : Prop :=
  Str.rstrip_by is_separator (Str.lstrip_by is_separator s) = s.

(** A pattern without capturing group. *)
Fixpoint groupless (r : Re.regex) : bool :=
  match r with
  | Re.Group _ _ => false
  | Re.Seq r1 r2 | Re.Alt r1 r2 => groupless r1 && groupless r2
  | Re.Opt r1 => groupless r1
  | _ => true
  end.

(** [s.lower()] *)
Fixpoint lower_str (s : string) : string :=
  match s with
  | "" => ""
  | String a s' => String (Str.lower a) (lower_str s')
  end.

(** ** Notions used in further statements *)

(** A character that ends a reference as far as [goahead] looks: [[\s;]]. *)
Definition ends_reference (c : ascii) : bool := Str.isspace c || Str.eqc c ";".

(** The tags of [handle_endtag]. *)
Definition is_block_tag (tag : string) : bool :=
  existsb (String.eqb tag) ["p"; "div"; "li"; "h1"; "h2"; "h3"; "h4"; "h5"; "h6"].

(** What one handler call adds to the text. *)
Definition event_text (e : event) : list string :=
  let line_feed := String Str.LF "" in
  match e with
  | Data d => [d]
  | StartTag tag _ => if String.eqb tag "br" then [line_feed] else []
  | EndTag tag => if is_block_tag tag then [line_feed] else []
  | StartEndTag tag _ =>
      if String.eqb tag "br" then [line_feed]
      else if is_block_tag tag then [line_feed] else []
  | Comment _ | Decl _ | Pi _ | UnknownDecl _ => []
  end.

(** The contact that [eat] makes of the "To" field. *)
Definition to_contact_of {mail_lib : MailLib} (mail : MailParser.t)
  : result (option Contact) :=
  match MailParser.to mail with
  | [] => ret None
  | (first_to_name, first_to_email) :: _ =>
      if truthy first_to_name || truthy first_to_email then
        let* to_address := _parser_email_address first_to_email in
        ret (Some (mkContact to_address (Some first_to_name)))
      else ret None
  end.

(** Replacing the attachments of a parsed mail. *)
Definition with_attachments (atts : list Attachment) (mail : MailParser.t)
  : MailParser.t :=
  MailParser.mk (MailParser.message_id mail) (MailParser.date mail)
    (MailParser.from_ mail) (MailParser.subject mail) (MailParser.to mail)
    (MailParser.headers mail) (MailParser.text_plain mail)
    (MailParser.text_html mail) atts.

(** The payload that [eat] hands to [compress_image]. *)
Definition payload_fixed (a : Attachment) : string :=
  Str.replace (String Str.LF "") "" (payload a).

(** The characters of the colour group that are no whitespace: word
    characters, [*] and [-]. *)
Definition color_word_char (c : ascii) : bool :=
  Str.isword c || Str.eqc c "*" || Str.eqc c "-".

(** The pieces of [DORMSPAM_PATTERN] in front of the whitespace that precedes
    the colour group, and the pieces from that whitespace on. *)
Definition dormspam_head : list Re.regex :=
  let i := true in
  [ Re.WordB;
    Re.Chr (Re.one_of i "bB"); Re.lits i "cc";
    Re.Opt (Re.Chr (Re.one_of i "'`-"));
    Re.Opt (Re.lit i "e"); Re.lit i "d";
    Re.Plus Str.isspace; Re.lits i "to"; Re.Plus Str.isspace;
    Re.Opt (Re.Group 1 (Re.Seq (Re.lits i "all") (Re.Plus Str.isspace)));
    Re.Alt (Re.lits i "dorms") (Re.lits i "dormspam");
    Re.Opt (Re.Chr (Re.one_of i ";,.")) ].

Definition dormspam_marker : list Re.regex :=
  [ Re.Plus Str.isspace; Re.lits true "for bc-talk"; Re.WordB ].

Definition dormspam_tail : list Re.regex :=
  Re.Plus Str.isspace :: Re.Group 2 (Re.Plus color_class) :: dormspam_marker.

Definition starts_with_word (s : string) : bool :=
  match s with
  | String x _ => Str.isword x
  | "" => false
  end.

Definition ends_with_word (s : string) : bool := Re.isword_opt (last_of None s).

(** A message whose sender has no address that the pattern accepts. *)
Definition mail_with_bad_sender : MailParser.t :=
  MailParser.mk "<id-4@mit.edu>" (Some noon) [("Mallory", "mallory at mit")] "Hi"
    [] ∅ ["hello"] [] [].

(** A message to a group without an address. *)
Definition mail_with_bad_recipient : MailParser.t :=
  MailParser.mk "<id-5@mit.edu>" (Some noon) alice "Hi"
    [("Everyone", "undisclosed-recipients:;")] ∅ ["hello"] [] [].

(** A message with an HTML body whose attachments have no content id. *)
Definition mail_with_unnamed_attachments : MailParser.t :=
  MailParser.mk "<id-6@mit.edu>" (Some noon) alice "Notes" [] ∅
    ["see notes"] ["<p>see notes</p>"]
    [mkAttachment "" None "bm90IGFuIGltYWdl"; mkAttachment "<>" None "x"].

(** A message with a plaintext body only, and an attachment that is no
    image. *)
Definition mail_with_plain_body_only : MailParser.t :=
  MailParser.mk "<id-7@mit.edu>" (Some noon) alice "Minutes" [] ∅
    ["see [cid:notes]"] []
    [mkAttachment "<notes>" (Some "base64") "bm90IGFuIGltYWdl"].

(** A digested broadcast that announces its colour in the middle of the
    text. *)
Definition announcement_email : Email :=
  mkEmail noon (mkContact (mkEmailAddress "alice" "mit.edu") (Some "Alice"))
    "Tea" None
    {[ "text/plain" := "Free tea! Bcc'd to all dorms; plum-red for bc-talk." ]}
    None "<id-8@mit.edu>".

(** A digested message that announces nothing. *)
Definition quiet_email : Email :=
  mkEmail noon (mkContact (mkEmailAddress "alice" "mit.edu") (Some "Alice"))
    "Tea" None {[ "text/plain" := "Tea at five, bring a cup." ]}
    None "<id-9@mit.edu>".

(** What the mail library gives for an address header that the mail does
    not have: one entry with an empty name and an empty address, the shape
    that the comment in [eat] describes for an empty "To". *)
Definition absent_addresses : ContactsType := [("", "")].

(** A message without From and without Subject. *)
Definition mail_without_sender_and_subject : MailParser.t :=
  MailParser.mk "<id-10@mit.edu>" (Some noon) absent_addresses "" [] ∅ ["hello"] [] [].

(** A message without From that has the other required headers. *)
Definition mail_without_sender : MailParser.t :=
  MailParser.mk "<id-11@mit.edu>" (Some noon) absent_addresses "Tea" [] ∅ ["hello"] [] [].

(** The dorm-list clause: what [DORMSPAM_PATTERN] matches in front of the
    whitespace that precedes the colour group, from the word boundary to the
    optional punctuation behind "dorms" or "dormspam". *)
Definition is_dorm_list_clause (prev : option ascii) (clause rest : string) : Prop :=
  exists c', denotes (Re.seq dormspam_head) prev clause rest Re.no_captures c'.

Definition starts_with_space (s : string) : bool :=
  match s with
  | String x _ => Str.isspace x
  | "" => false
  end.

(** ** Facts about the string primitives *)

Lemma length_app (a b : string) :
  String.length (a ++ b) = String.length a + String.length b.
Proof. induction a as [|x a IH]; simpl; [reflexivity | now rewrite IH]. Qed.

Lemma app_assoc_str (a b c : string) : (a ++ b) ++ c = a ++ (b ++ c).
Proof. induction a as [|x a IH]; simpl; [reflexivity | now rewrite IH]. Qed.

Lemma app_empty_r (a : string) : a ++ "" = a.
Proof. induction a as [|x a IH]; simpl; [reflexivity | now rewrite IH]. Qed.

Lemma take_app (a b : string) : Str.take (String.length a) (a ++ b) = a.
Proof. induction a as [|x a IH]; simpl; [now destruct b | now rewrite IH]. Qed.

Lemma drop_app (a b : string) : Str.drop (String.length a) (a ++ b) = b.
Proof. induction a as [|x a IH]; simpl; [reflexivity | exact IH]. Qed.

Lemma take_all (s : string) : Str.take (String.length s) s = s.
Proof. induction s as [|x s IH]; simpl; [reflexivity | now rewrite IH]. Qed.

Lemma eqc_refl (a : ascii) : Str.eqc a a = true.
Proof. apply Ascii.eqb_refl. Qed.

Lemma startswith_app (p s : string) : Str.startswith p (p ++ s) = true.
Proof.
  induction p as [|x p IH]; simpl; [reflexivity |].
  now rewrite eqc_refl, IH.
Qed.

Lemma find_at_start (p s : string) : Str.find p (p ++ s) = Some 0.
Proof.
  destruct (p ++ s) eqn:E; simpl; rewrite <- E, startswith_app; reflexivity.
Qed.

(** What [partition] leaves behind a separator that starts the text. *)
Lemma partition_at_start (sep s : string) :
  snd (Str.partition sep (sep ++ s)) = s.
Proof.
  unfold Str.partition. rewrite find_at_start. simpl. apply drop_app.
Qed.

Lemma drop_last_app (p e : string) : Str.drop_last (p ++ e) (String.length e) = p.
Proof.
  unfold Str.drop_last. rewrite length_app.
  replace (String.length p + String.length e - String.length e)
    with (String.length p) by lia.
  apply take_app.
Qed.

(** [replace] leaves a text without occurrence of [old] as it is. *)
Lemma replace_absent (old new s : string) :
  Str.find old s = None -> Str.replace old new s = s.
Proof.
  unfold Str.replace. induction s as [|x s IH]; intros Hf.
  - destruct old; [discriminate | reflexivity].
  - destruct old as [|o old']; [discriminate |].
    cbn [Str.find] in Hf. cbn [Str.replace_from].
    destruct (Str.startswith (String o old') (String x s)); [discriminate |].
    destruct (Str.find (String o old') s); [discriminate |].
    now rewrite IH.
Qed.

Lemma contains_false_find (sub s : string) :
  Str.contains sub s = false -> Str.find sub s = None.
Proof. unfold Str.contains. now destruct (Str.find sub s). Qed.

Lemma rfind_absent (c : ascii) (s : string) :
  Str.contains (String c "") s = false -> Str.rfind_by (Str.eqc c) s = None.
Proof.
  intros Hc. apply contains_false_find in Hc.
  induction s as [|x s IH]; [reflexivity |].
  cbn [Str.find Str.startswith] in Hc. cbn [Str.rfind_by].
  destruct (Str.eqc c x) eqn:E; [discriminate |].
  cbn in Hc. destruct (Str.find (String c "") s); [discriminate |].
  now rewrite IH.
Qed.

Lemma contains_drop (c : ascii) (s : string) (i : nat) :
  Str.contains (String c "") s = false ->
  Str.contains (String c "") (Str.drop i s) = false.
Proof.
  revert i. induction s as [|x s IH]; intros [|i] Hc; try exact Hc.
  cbn [Str.drop]. apply IH.
  apply contains_false_find in Hc. cbn [Str.find Str.startswith] in Hc.
  unfold Str.contains.
  destruct (Str.eqc c x); [discriminate |]. cbn in Hc.
  now destruct (Str.find (String c "") s).
Qed.

(** ** Soundness of the matcher

    Whatever [run] returns was returned by its continuation, called behind a
    word that the pattern denotes. *)

Lemma last_of_app (prev : option ascii) (w1 w2 : string) :
  last_of prev (w1 ++ w2) = last_of (last_of prev w1) w2.
Proof. revert prev. induction w1 as [|a w1 IH]; intros prev; simpl; auto. Qed.

Lemma consumed_app (w rest : string) : Re.consumed (w ++ rest) rest = w.
Proof.
  unfold Re.consumed. rewrite length_app.
  replace (String.length w + String.length rest - String.length rest)
    with (String.length w) by lia.
  apply take_app.
Qed.

Lemma orelse_some {A : Type} (x y : option A) (r : A) :
  Re.orelse x y = Some r -> x = Some r \/ y = Some r.
Proof. destruct x; simpl; intros E; [left | right]; exact E. Qed.

Lemma star_sound {A : Type} (p : ascii -> bool) (s : string) :
  forall (prev : option ascii) (k : option ascii -> string -> option A) (res : A),
    Re.star p prev s k = Some res ->
    exists w rest,
      s = w ++ rest /\ Str.all p w = true /\ k (last_of prev w) rest = Some res.
Proof.
  induction s as [|a s IH]; intros prev k res Hrun; simpl in Hrun.
  - exists "", "". auto.
  - destruct (p a) eqn:Hp.
    + apply orelse_some in Hrun as [Hmore | Hstop].
      * destruct (IH _ _ _ Hmore) as (w & rest & -> & Hall & Hk).
        exists (String a w), rest. simpl. rewrite Hp, Hall. auto.
      * exists "", (String a s). auto.
    + exists "", (String a s). auto.
Qed.

Lemma run_sound {A : Type} (r : Re.regex) :
  forall (prev : option ascii) (s : string) (c : Re.captures)
         (k : option ascii -> string -> Re.captures -> option A) (res : A),
    Re.run r prev s c k = Some res ->
    exists w rest c',
      s = w ++ rest /\ denotes r prev w rest c c'
      /\ k (last_of prev w) rest c' = Some res.
Proof.
  induction r as [|p|r1 IH1 r2 IH2|r1 IH1 r2 IH2|r1 IH1|p|p|n r1 IH1| |];
    intros prev s c k res Hrun; simpl in Hrun.
  - exists "", s, c. simpl. auto.
  - destruct s as [|a s]; [discriminate |].
    destruct (p a) eqn:Hp; [| discriminate].
    exists (String a ""), s, c. simpl. eauto 6.
  - destruct (IH1 _ _ _ _ _ Hrun) as (w1 & rest1 & c1 & -> & D1 & Hk1).
    destruct (IH2 _ _ _ _ _ Hk1) as (w2 & rest & c2 & -> & D2 & Hk2).
    exists (w1 ++ w2), rest, c2.
    rewrite app_assoc_str, last_of_app. split; [reflexivity |].
    split; [| exact Hk2]. simpl. eauto 8.
  - apply orelse_some in Hrun as [H1 | H2].
    + destruct (IH1 _ _ _ _ _ H1) as (w & rest & c' & -> & D & Hk).
      exists w, rest, c'. simpl. auto.
    + destruct (IH2 _ _ _ _ _ H2) as (w & rest & c' & -> & D & Hk).
      exists w, rest, c'. simpl. auto.
  - apply orelse_some in Hrun as [H1 | H2].
    + destruct (IH1 _ _ _ _ _ H1) as (w & rest & c' & -> & D & Hk).
      exists w, rest, c'. simpl. auto.
    + exists "", s, c. simpl. auto.
  - apply star_sound in Hrun as (w & rest & -> & Hall & Hk).
    exists w, rest, c. simpl. auto.
  - destruct s as [|a s]; [discriminate |].
    destruct (p a) eqn:Hp; [| discriminate].
    apply star_sound in Hrun as (w & rest & -> & Hall & Hk).
    exists (String a w), rest, c. simpl. rewrite Hp, Hall.
    repeat split; auto; discriminate.
  - destruct (IH1 _ _ _ _ _ Hrun) as (w & rest & c1 & -> & D & Hk).
    rewrite consumed_app in Hk.
    exists w, rest, (Re.set_group n w c1). simpl. eauto.
  - destruct (Re.at_boundary prev s) eqn:Hb; [| discriminate].
    exists "", s, c. simpl. auto.
  - destruct (Re.at_end s) eqn:He; [| discriminate].
    exists "", s, c. simpl. auto.
Qed.

(** A successful [search] found, behind some prefix of the text, a word that
    the pattern denotes; the groups of the match are the captures made. *)
Lemma search_from_sound (r : Re.regex) (s : string) :
  forall (prev : option ascii) (i : nat) (m : Re.match_obj),
    Re.search_from r prev i s = Some m ->
    exists pre w rest,
      s = pre ++ w ++ rest
      /\ denotes r (last_of prev pre) w rest Re.no_captures (Re.m_groups m).
Proof.
  induction s as [|a s IH]; intros prev i m Hs; simpl in Hs.
  - destruct (Re.match_at r prev i "") as [m'|] eqn:Hm; [| discriminate].
    injection Hs as <-. unfold Re.match_at in Hm.
    apply run_sound in Hm as (w & rest & c' & E & D & Hk).
    injection Hk as <-. exists "", w, rest. simpl. auto.
  - destruct (Re.match_at r prev i (String a s)) as [m'|] eqn:Hm.
    + injection Hs as <-. unfold Re.match_at in Hm.
      apply run_sound in Hm as (w & rest & c' & E & D & Hk).
      injection Hk as <-. exists "", w, rest. simpl. auto.
    + destruct (IH _ _ _ Hs) as (pre & w & rest & -> & D).
      exists (String a pre), w, rest. simpl. auto.
Qed.

(** ** What a match of the broadcast pattern looks like *)

Lemma denotes_groupless (r : Re.regex) :
  groupless r = true ->
  forall prev w rest c c', denotes r prev w rest c c' -> c' = c.
Proof.
  induction r as [|p|r1 IH1 r2 IH2|r1 IH1 r2 IH2|r1 IH1|p|p|n r1 IH1| |];
    simpl; intros G prev w rest c c' D; try discriminate;
    try (apply andb_prop in G as [G1 G2]); try tauto.
  - destruct D as (w1 & w2 & c1 & _ & D1 & D2).
    rewrite (IH2 G2 _ _ _ _ _ D2). eauto.
  - destruct D as [D | D]; eauto.
  - destruct D as [D | [_ D]]; eauto.
Qed.

(** A sequence matches piece by piece. *)
Lemma denotes_seq_cons (r : Re.regex) (rs : list Re.regex) prev w rest c c' :
  denotes (Re.seq (r :: rs)) prev w rest c c' ->
  exists w1 w2 c1,
    w = w1 ++ w2 /\ denotes r prev w1 (w2 ++ rest) c c1
    /\ denotes (Re.seq rs) (last_of prev w1) w2 rest c1 c'.
Proof.
  destruct rs as [|r' rs]; [| exact (fun D => D)].
  intros D. exists w, "", c'. simpl. rewrite app_empty_r. auto.
Qed.

Lemma denotes_lit (i : bool) (a : ascii) prev w rest c c' :
  denotes (Re.lit i a) prev w rest c c' ->
  (exists x, w = String x ""
             /\ (if i then Str.eqc (Str.lower x) (Str.lower a) else Str.eqc x a) = true)
  /\ c' = c.
Proof. exact (fun D => D). Qed.

(** A literal matched without regard to case is the literal, up to case. *)
Lemma denotes_lits_ignorecase (s : string) :
  forall prev w rest c c',
    denotes (Re.lits true s) prev w rest c c' ->
    lower_str w = lower_str s /\ c' = c.
Proof.
  induction s as [|a s IH]; intros prev w rest c c' D.
  - destruct D as [-> ->]. auto.
  - destruct s as [|b s].
    + apply denotes_lit in D as [(x & -> & E) ->].
      apply Ascii.eqb_eq in E. simpl. now rewrite E.
    + destruct D as (w1 & w2 & c1 & -> & D1 & D2).
      apply denotes_lit in D1 as [(x & -> & E) ->].
      apply Ascii.eqb_eq in E.
      apply IH in D2 as [E2 ->].
      simpl in *. now rewrite E, E2.
Qed.

Lemma split_behind (w1 w2 a g b : string) :
  w2 = a ++ g ++ b -> w1 ++ w2 = (w1 ++ a) ++ g ++ b.
Proof. intros ->. now rewrite app_assoc_str. Qed.

Tactic Notation "peel" hyp(D) "as" ident(w1) ident(w2) ident(D1) :=
  let c1 := fresh "c" in
  let E := fresh "E" in
  apply denotes_seq_cons in D as (w1 & w2 & c1 & E & D1 & D).

(** The shape of a match: the colour group is a non-empty run of characters
    of its set, and behind it come whitespace and the marker. *)
Lemma dormspam_shape prev w rest c c' :
  denotes DORMSPAM_PATTERN prev w rest c c' ->
  exists a g ws f,
    w = a ++ g ++ ws ++ f
    /\ c' DORMSPAM_PATTERN_COLOR_GROUP = Some g
    /\ g <> "" /\ Str.all color_class g = true
    /\ ws <> "" /\ Str.all Str.isspace ws = true
    /\ lower_str f = "for bc-talk".
Proof.
  intros D. unfold DORMSPAM_PATTERN in D.
  peel D as a1 t1 D1. peel D as a2 t2 D2. peel D as a3 t3 D3.
  peel D as a4 t4 D4. peel D as a5 t5 D5. peel D as a6 t6 D6.
  peel D as a7 t7 D7. peel D as a8 t8 D8. peel D as a9 t9 D9.
  peel D as a10 t10 D10. peel D as a11 t11 D11. peel D as a12 t12 D12.
  peel D as a13 t13 D13.
  peel D as g t14 Dg. peel D as ws t15 Dws. peel D as f t16 Df.
  destruct Dg as (cg & [[Hne Hall] ->] & ->).
  destruct Dws as [[Hws1 Hws2] ->].
  apply denotes_lits_ignorecase in Df as [Hf ->].
  destruct D as [[-> _] ->].
  exists (a1 ++ a2 ++ a3 ++ a4 ++ a5 ++ a6 ++ a7 ++ a8 ++ a9 ++ a10 ++ a11
          ++ a12 ++ a13), g, ws, f.
  split; [| now repeat split].
  subst. rewrite app_empty_r, !app_assoc_str. reflexivity.
Qed.

Lemma color_of_shape (text c : string) :
  color_of text = Some c ->
  exists pre ws f post,
    text = pre ++ c ++ ws ++ f ++ post
    /\ c <> "" /\ Str.all color_class c = true
    /\ ws <> "" /\ Str.all Str.isspace ws = true
    /\ lower_str f = "for bc-talk".
Proof.
  unfold color_of, Re.search, Re.group. intros Hc.
  destruct (Re.search_from DORMSPAM_PATTERN None 0 text) as [m|] eqn:Hs;
    [| discriminate].
  apply search_from_sound in Hs as (pre & w & rest & -> & D).
  apply dormspam_shape in D as (a & g & ws & f & -> & Hg & Hne & Hall & Hw).
  rewrite Hg in Hc. injection Hc as <-.
  exists (pre ++ a), ws, f, rest. split; [| tauto].
  now rewrite !app_assoc_str.
Qed.

Lemma truthy_nonempty (s : string) : s <> "" -> truthy s = true.
Proof. destruct s; [congruence | reflexivity]. Qed.

Section DerivedFacts.
Context {html_lib : HtmlLib}.

(** C7. For every digested Email the flag [dormspam] is true exactly when
    [color] is present: a match always captures a non-empty colour.  When
    the broadcast pattern does not match the plaintext, [color] is [None]
    and [dormspam] is false. *)
Theorem dormspam_iff_color_present (e : Email) :
  (dormspam e = true <-> color e <> None)
  /\ (Re.search DORMSPAM_PATTERN (plaintext e) = None ->
      color e = None /\ dormspam e = false).
Proof.
  unfold dormspam. split.
  - destruct (color e) as [c|] eqn:Hc.
    + apply color_of_shape in Hc as (_ & _ & _ & _ & _ & Hne & _).
      change (truthy (Some c)) with (truthy c).
      rewrite (truthy_nonempty c Hne). split; [discriminate | reflexivity].
    + change (truthy (@None string)) with false.
      split; [discriminate | congruence].
  - intros Hs. unfold color, color_of. now rewrite Hs.
Qed.

(** C2. The plaintext of an Email is its "text/plain" body when there is
    one; otherwise the HTML body converted by [html2text] when there is one;
    otherwise the empty string. *)
Theorem plaintext_prefers_plain_then_html (e : Email) :
  (forall plain, content e !! "text/plain" = Some plain -> plaintext e = plain)
  /\ (forall html,
        content e !! "text/plain" = None ->
        content e !! "text/html" = Some html ->
        plaintext e = html2text html)
  /\ (content e !! "text/plain" = None ->
      content e !! "text/html" = None ->
      plaintext e = "").
Proof.
  unfold plaintext. repeat split.
  - now intros plain ->.
  - now intros html -> ->.
  - now intros -> ->.
Qed.

End DerivedFacts.

(** C8, as stated, fails: with two blanks in front of the marker the colour
    keeps one of them. *)
Lemma color_may_end_in_whitespace :
  ~ (forall text c : string, color_of text = Some c -> trimmed c).
Proof.
  intros Hclaim.
  specialize (Hclaim "Bcc'd to all dorms; yellow  for bc-talk" "yellow ").
  assert (Hc : color_of "Bcc'd to all dorms; yellow  for bc-talk" = Some "yellow ")
    by (vm_compute; reflexivity).
  apply Hclaim in Hc. vm_compute in Hc. discriminate.
Qed.

(** ** The converter on text without markup *)

Section ConverterFacts.
Context {html_lib : HtmlLib}.

Lemma find_char_absent (c : ascii) (s : string) (i : nat) :
  Str.contains (String c "") s = false -> Str.find_char_from c s i = None.
Proof.
  intros Hc. unfold Str.find_char_from.
  now rewrite (contains_false_find _ _ (contains_drop c s i Hc)).
Qed.

Lemma rfind_char_absent (c : ascii) (s : string) (i : nat) :
  Str.contains (String c "") s = false -> Str.rfind_char_from c s i = None.
Proof.
  intros Hc. unfold Str.rfind_char_from.
  now rewrite (rfind_absent c _ (contains_drop c s i Hc)).
Qed.

(** Text with neither [<] nor [&] is handed to [handle_data] in one piece. *)
Lemma goahead_turn_plain (s : string) (parts : list string) :
  s <> "" ->
  Str.contains "<" s = false -> Str.contains "&" s = false ->
  goahead_turn (mkConverter true s None parts) 0
  = Break (mkConverter true s None (parts ++ [s])%list) (String.length s).
Proof.
  intros Hne Hlt Hamp. unfold goahead_turn, text_end.
  cbn [convert_charrefs cdata_elem rawdata is_found negb andb].
  rewrite (find_char_absent "<" s 0 Hlt), (rfind_char_absent "&" s _ Hamp).
  unfold Str.slice. rewrite Nat.sub_0_r. cbn [Str.drop].
  rewrite take_all, Nat.eqb_refl.
  assert ((0 <? String.length s) = true) as ->
    by (destruct s; [congruence | reflexivity]).
  unfold unescape. rewrite Hamp. reflexivity.
Qed.

(** C9 (amended). On a string that contains neither [<] nor [&] the
    converter returns the string with leading and trailing whitespace
    stripped. *)
Theorem html2text_identity_on_plain_text (s : string) :
  Str.contains "<" s = false -> Str.contains "&" s = false ->
  html2text s = Str.strip s.
Proof.
  intros Hlt Hamp. unfold html2text, feed, new_converter, goahead, with_rawdata.
  cbn [rawdata convert_charrefs cdata_elem text_parts String.append].
  destruct s as [|a s]; [reflexivity |].
  cbn [String.length goahead_loop rawdata Nat.ltb Nat.leb].
  rewrite (goahead_turn_plain (String a s) []); [| discriminate | assumption..].
  reflexivity.
Qed.

(** C6.  The converter is built with [convert_charrefs] left at [True]: a
    named reference never reaches [handle_entityref], the text around it
    goes through [html.unescape] instead and the table [entities] is not
    consulted.  With [convert_charrefs=False] the same handlers give what
    the table says. *)
Theorem entity_table_is_bypassed :
  html2text "a&foo;b" = Str.strip (charref_sub "a&foo;b")
  /\ html2text "x&nbsp;y" = Str.strip (charref_sub "x&nbsp;y")
  /\ html2text_charrefs_off "a&foo;b" = "ab"
  /\ html2text_charrefs_off "x&nbsp;y" = "x y".
Proof. repeat split; vm_compute; reflexivity. Qed.

End ConverterFacts.

(** C9, as stated, fails.  A reference in text without tags is resolved,
    as the converter is meant to do: whenever [html.unescape] turns [&amp;]
    into [&], so does [html2text].  And whatever the library's recognisers
    do, [feed] keeps back a text that ends in an unfinished reference, which
    is lost because [html2text] never calls [close()]. *)
Lemma html2text_changes_text_without_tags :
  (forall lib : HtmlLib,
      charref_sub "a&amp;b" = "a&b" ->
      html2text "a&amp;b" = "a&b" /\ Str.strip "a&amp;b" = "a&amp;b")
  /\ ~ (exists lib : HtmlLib,
          forall s, Str.contains "<" s = false -> html2text s = Str.strip s).
Proof.
  split.
  - intros lib Hamp. split; [| reflexivity].
    unfold html2text, feed, goahead, get_text. vm_compute.
    change (Str.strip (charref_sub "a&amp;b") = "a&b").
    now rewrite Hamp.
  - intros [lib Hclaim].
    specialize (Hclaim "AT&T" eq_refl). vm_compute in Hclaim. discriminate.
Qed.

(** C9 (amended) at a concrete text. *)
Lemma html2text_identity_on_plain_text_witness :
  html2text (html_lib := waiting_html_lib) "  tea at five  " = "tea at five".
Proof.
  exact (html2text_identity_on_plain_text (html_lib := waiting_html_lib)
           "  tea at five  " eq_refl eq_refl).
Defined.

(** ** [replace], occurrence by occurrence *)

Lemma replace_from_skip (o : ascii) (old' new : string) (k : nat) (s : string) :
  Str.replace_from (String o old') new k s
  = Str.replace (String o old') new (Str.drop k s).
Proof.
  unfold Str.replace. revert s.
  induction k as [|k IH]; intros s; [reflexivity |].
  destruct s as [|x s]; [reflexivity |]. simpl. apply IH.
Qed.

(** The first occurrence of [old] gives way to [new], and the text behind
    it is treated in the same way. *)
Lemma replace_first (old new s : string) (i : nat) :
  old <> "" -> Str.find old s = Some i ->
  Str.replace old new s
  = Str.take i s ++ new ++ Str.replace old new (Str.drop (i + String.length old) s).
Proof.
  destruct old as [|o old']; [congruence |]. intros _.
  unfold Str.replace. revert i.
  induction s as [|x s IH]; intros i Hf; [discriminate |].
  cbn [Str.find] in Hf. cbn [Str.replace_from].
  destruct (Str.startswith (String o old') (String x s)).
  - injection Hf as <-. rewrite replace_from_skip. reflexivity.
  - destruct (Str.find (String o old') s) as [j|]; [| discriminate].
    injection Hf as <-. rewrite (IH j eq_refl). reflexivity.
Qed.

(** ** Digestion *)

Section DigestFacts.
Context {mail_lib : MailLib} {image_lib : ImageLib}.

Lemma digest_missing (mail : MailParser.t) :
  missing_headers mail <> [] ->
  digest mail
  = raise (EmailMissingHeaders
             ("failed to parse: " ++ Str.join ", " (map repr (missing_headers mail)))).
Proof.
  unfold digest, missing_headers, nibble.
  destruct (truthy (MailParser.message_id mail)), (truthy (MailParser.date mail)),
    (truthy (MailParser.from_ mail)), (truthy (MailParser.subject mail)),
    (truthy (MailParser.to mail));
    intros Hne; try reflexivity; now contradiction Hne.
Qed.

Ltac invert_bind H :=
  repeat match type of H with
  | bind ?x _ = _ =>
      let E := fresh "E" in
      destruct x eqn:E; cbn [bind] in H; [discriminate H |]; cbn beta iota in H
  end.

(** A digestion that succeeds went through the whole of [eat]: no required
    header was missing and the content mapping was built. *)
Lemma digest_success (mail : MailParser.t) (e : Email) :
  digest mail = ret e ->
  missing_headers mail = [] /\ build_content mail = ret (content e).
Proof.
  intros Hd.
  destruct (missing_headers mail) as [|h hs] eqn:Hm.
  2:{ rewrite digest_missing in Hd; [discriminate Hd | rewrite Hm; discriminate]. }
  split; [reflexivity |].
  unfold missing_headers in Hm. unfold digest, nibble in Hd.
  fold (build_content mail) in Hd.
  destruct (truthy (MailParser.message_id mail)),
    (truthy (MailParser.date mail)) eqn:Ed,
    (truthy (MailParser.from_ mail)) eqn:Ef,
    (truthy (MailParser.subject mail)); try discriminate Hm.
  destruct (MailParser.date mail) as [d|]; [| discriminate Ed].
  destruct (MailParser.from_ mail) as [|[n a] fs]; [discriminate Ef |].
  assert (Hto : exists to : option ContactsType,
             (if truthy (MailParser.to mail)
              then (Some (MailParser.to mail), @None (list string))
              else (None, None)) = (to, None))
    by (destruct (truthy (MailParser.to mail)); eauto).
  destruct Hto as [to Hto]. rewrite Hto in Hd.
  cbn [truthy list_truthy default from_option id assert_not_none mjoin
       option_join bind ret] in Hd.
  invert_bind Hd. destruct p as [first_to_name first_to_email].
  invert_bind Hd. injection Hd as <-. reflexivity.
Qed.

Lemma plain_loop (atts : list Attachment) :
  forall (body : string) (m : gmap string string),
    fold_left plain_body atts (<["text/plain" := body]> m)
    = <["text/plain" := fold_left plain_cleanup atts body]> m.
Proof.
  induction atts as [|a atts IH]; intros body m; [reflexivity |].
  cbn [fold_left]. rewrite <- IH. f_equal.
  unfold plain_body, plain_cleanup, plain_marker, cid_of.
  unfold truthy at 1, string_truthy.
  destruct (String.eqb (Str.strip_chars "<>" (content_id a)) ""); cbn [negb];
    [reflexivity |].
  now rewrite lookup_total_insert_eq, insert_insert_eq.
Qed.

Lemma encoding_of_cte (a : Attachment) :
  (if truthy (content_transfer_encoding a)
   then default "" (content_transfer_encoding a) else "base64")
  = encoding_of a.
Proof.
  unfold encoding_of. destruct (content_transfer_encoding a) as [e|]; [| reflexivity].
  change (truthy (Some e)) with (negb (String.eqb e "")).
  now destruct (String.eqb e "").
Qed.

Lemma html_step (body : string) (m : gmap string string) (a : Attachment) :
  html_body (<["text/html" := body]> m) a
  = let* body' := html_inlining body a in ret (<["text/html" := body']> m).
Proof.
  unfold html_body, html_inlining, html_marker, data_uri, cid_of.
  rewrite encoding_of_cte.
  change (truthy (Str.strip_chars "<>" (content_id a)))
    with (negb (String.eqb (Str.strip_chars "<>" (content_id a)) "")).
  destruct (String.eqb (Str.strip_chars "<>" (content_id a)) ""); cbn [negb];
    [reflexivity |].
  destruct (compress_image _) as [err|compressed]; cbn [bind]; [reflexivity |].
  now rewrite lookup_total_insert_eq, insert_insert_eq.
Qed.

Lemma html_loop (atts : list Attachment) :
  forall (body : string) (m : gmap string string),
    for_each html_body atts (<["text/html" := body]> m)
    = let* body' := for_each html_inlining atts body in
      ret (<["text/html" := body']> m).
Proof.
  induction atts as [|a atts IH]; intros body m; [reflexivity |].
  cbn [for_each]. rewrite html_step.
  destruct (html_inlining body a) as [err|body']; cbn [bind ret]; [reflexivity |].
  apply IH.
Qed.

End DigestFacts.

(** ** Properties of digestion *)

Section EatProperties.
Context {mail_lib : MailLib} {image_lib : ImageLib}.

(** Every required header whose value is empty (an empty string, no date,
    an empty list of senders) is reported: [eat] asks for all four and then
    raises one [EmailMissingHeaders] whose message lists every such name, in
    the order asked; a message that lacks Subject and Message-ID and nothing
    else fails with the list 'Message-ID', 'Subject'. *)
Theorem eat_reports_every_missing_header (raw : string) :
  missing_headers (parse_from_string raw) <> [] ->
  eat raw
  = raise (EmailMissingHeaders
             ("failed to parse: "
              ++ Str.join ", " (map repr (missing_headers (parse_from_string raw)))))
  /\ (missing_headers (parse_from_string raw) = ["Message-ID"; "Subject"] ->
      eat raw = raise (EmailMissingHeaders "failed to parse: 'Message-ID', 'Subject'")).
Proof.
  intros Hm. unfold eat. rewrite (digest_missing _ Hm). split; [reflexivity |].
  now intros ->.
Qed.

(** C3 (amended). For an attachment with a non-empty content identifier
    whose marker does not occur in the HTML body, the rewrite still runs the
    image compressor on the payload: when the compressor succeeds the
    content is left as it was, and when it fails its error is the outcome. *)
Theorem unreferenced_attachment_is_still_compressed
    (content : gmap string string) (a : Attachment) (body : string) :
  cid_of a <> "" ->
  content !! "text/html" = Some body ->
  Str.contains (html_marker (cid_of a)) body = false ->
  html_body content a
  = let* _ := compress_image (Str.replace (String Str.LF "") "" (payload a)) in
    ret content.
Proof.
  intros Hcid Hbody Habsent.
  rewrite <- (insert_id content "text/html" body Hbody) at 1.
  rewrite html_step. unfold html_inlining.
  destruct (String.eqb (cid_of a) "") eqn:E;
    [apply String.eqb_eq in E; contradiction |].
  destruct (compress_image _) as [err|compressed]; cbn [bind ret]; [reflexivity |].
  rewrite (replace_absent _ _ _ (contains_false_find _ _ Habsent)).
  now rewrite (insert_id content "text/html" body Hbody).
Qed.

(** C4. For every attachment with a non-empty content identifier, taken in
    list order, digestion replaces every occurrence of [[cid:<id>]] in the
    plaintext body by the empty string, and every occurrence of
    [src="cid:<id>"] in the HTML body by
    [src="data:image/png;<encoding>,<compressed>"], where the encoding is
    "base64" unless the attachment names one and the compressed payload is
    the compressor's output for the payload without line feeds;
    [replace_absent] and [replace_first] say what replacing does. *)
Theorem bodies_are_rewritten_for_each_attachment (mail : MailParser.t) (e : Email) :
  digest mail = ret e ->
  (forall plain rest,
      MailParser.text_plain mail = plain :: rest ->
      content e !! "text/plain"
      = Some (fold_left plain_cleanup (MailParser.attachments mail) plain))
  /\ (forall html rest,
        MailParser.text_html mail = html :: rest ->
        exists html',
          for_each html_inlining (MailParser.attachments mail) html = ret html'
          /\ content e !! "text/html" = Some html')
  /\ (MailParser.text_plain mail = [] -> content e !! "text/plain" = None)
  /\ (MailParser.text_html mail = [] -> content e !! "text/html" = None).
Proof.
  intros Hd. apply digest_success in Hd as [_ Hc].
  unfold build_content in Hc.
  destruct (MailParser.text_plain mail) as [|plain ps],
           (MailParser.text_html mail) as [|html hs].
  - injection Hc as <-.
    split; [discriminate |]. split; [discriminate |].
    split; intros _; apply lookup_empty.
  - rewrite html_loop in Hc.
    destruct (for_each html_inlining _ html) as [err|html'] eqn:Eh; [discriminate |].
    injection Hc as <-.
    split; [discriminate |]. split; [| split; [| discriminate]].
    + intros ? ? [= <- <-]. exists html'. now rewrite lookup_insert_eq.
    + intros _. now rewrite lookup_insert_ne.
  - injection Hc as <-. rewrite plain_loop.
    split; [| split; [discriminate |]; split; [discriminate |]].
    + intros ? ? [= <- <-]. apply lookup_insert_eq.
    + intros _. now rewrite lookup_insert_ne.
  - rewrite plain_loop, html_loop in Hc.
    destruct (for_each html_inlining _ html) as [err|html'] eqn:Eh; [discriminate |].
    injection Hc as <-.
    split; [| split; [| split; discriminate]].
    + intros ? ? [= <- <-]. rewrite lookup_insert_ne by discriminate.
      apply lookup_insert_eq.
    + intros ? ? [= <- <-]. exists html'. now rewrite lookup_insert_eq.
Qed.

(** C10. When the MIME parser yields several plaintext (or HTML) body parts,
    [eat] builds the content from the first of each list only.  The further
    parts change nothing in the outcome, be it an Email or an error; and in
    an Email the content holds, under "text/plain" and "text/html", what the
    loops over the attachments make of the first plaintext part and of the
    first HTML part, and no other key.  Without attachments these are the
    first parts themselves. *)
Theorem only_first_body_part_counts
    (mail : MailParser.t) (plain html : string) (more_plain more_html : list string) :
  (digest (with_bodies (plain :: more_plain) (html :: more_html) mail)
   = digest (with_bodies [plain] [html] mail)
   /\ digest (with_bodies (plain :: more_plain) [] mail)
      = digest (with_bodies [plain] [] mail)
   /\ digest (with_bodies [] (html :: more_html) mail)
      = digest (with_bodies [] [html] mail))
  /\ (forall e,
        digest (with_bodies (plain :: more_plain) (html :: more_html) mail) = ret e ->
        exists html',
          for_each html_inlining (MailParser.attachments mail) html = ret html'
          /\ content e
             = <["text/html" := html']>
                 (<["text/plain" :=
                      fold_left plain_cleanup (MailParser.attachments mail) plain]> ∅))
  /\ (forall e,
        digest (with_bodies (plain :: more_plain) [] mail) = ret e ->
        content e
        = <["text/plain" :=
              fold_left plain_cleanup (MailParser.attachments mail) plain]> ∅)
  /\ (forall e,
        digest (with_bodies [] (html :: more_html) mail) = ret e ->
        exists html',
          for_each html_inlining (MailParser.attachments mail) html = ret html'
          /\ content e = <["text/html" := html']> ∅)
  /\ (forall e,
        MailParser.attachments mail = [] ->
        digest (with_bodies (plain :: more_plain) (html :: more_html) mail) = ret e ->
        content e = <["text/html" := html]> (<["text/plain" := plain]> ∅)).
Proof.
  split; [repeat split; reflexivity |].
  assert (Hboth : forall e,
            digest (with_bodies (plain :: more_plain) (html :: more_html) mail) = ret e ->
            exists html',
              for_each html_inlining (MailParser.attachments mail) html = ret html'
              /\ content e
                 = <["text/html" := html']>
                     (<["text/plain" :=
                          fold_left plain_cleanup (MailParser.attachments mail) plain]> ∅)).
  { intros e Hd. apply digest_success in Hd as [_ Hc].
    unfold build_content in Hc.
    cbn [with_bodies MailParser.text_plain MailParser.text_html
         MailParser.attachments] in Hc.
    rewrite plain_loop, html_loop in Hc.
    destruct (for_each html_inlining _ html) as [err|html']; [discriminate Hc |].
    injection Hc as <-. now exists html'. }
  split; [exact Hboth |]. split; [| split].
  - intros e Hd. apply digest_success in Hd as [_ Hc].
    unfold build_content in Hc.
    cbn [with_bodies MailParser.text_plain MailParser.text_html
         MailParser.attachments] in Hc.
    rewrite plain_loop in Hc. now injection Hc as <-.
  - intros e Hd. apply digest_success in Hd as [_ Hc].
    unfold build_content in Hc.
    cbn [with_bodies MailParser.text_plain MailParser.text_html
         MailParser.attachments] in Hc.
    rewrite html_loop in Hc.
    destruct (for_each html_inlining _ html) as [err|html']; [discriminate Hc |].
    injection Hc as <-. now exists html'.
  - intros e Hatts Hd. destruct (Hboth e Hd) as (html' & Hh & ->).
    rewrite Hatts in *. cbn in Hh. now injection Hh as <-.
Qed.

End EatProperties.

(** C5. For a date made of a timestamp that [strptime] accepts under the
    format "%a, %d %b %Y %H:%M:%S %z" and of trailing characters that
    [strptime] reports as unconverted, [parse_date] does not fail: it cuts
    the trailing characters off and returns what [strptime] makes of the
    timestamp. *)
Theorem parse_date_drops_unconverted_tail {time_lib : TimeLib}
    (stamp extra : string) (sent : datetime) :
  extra <> "" ->
  strptime (stamp ++ extra) "%a, %d %b %Y %H:%M:%S %z"
  = raise (ValueError ("unconverted data remains: " ++ extra)) ->
  strptime stamp "%a, %d %b %Y %H:%M:%S %z" = ret sent ->
  parse_date (stamp ++ extra) = ret sent.
Proof.
  intros Hne Hfirst Hsecond. unfold parse_date.
  rewrite Hfirst. cbn [raise].
  rewrite partition_at_start, (truthy_nonempty extra Hne). cbn [negb].
  now rewrite drop_last_app.
Qed.

(** ** The properties at concrete inputs *)

(** The report at a message without Message-ID and Subject. *)
Lemma eat_reports_every_missing_header_witness :
  missing_headers mail_without_id_and_subject = ["Message-ID"; "Subject"]
  /\ eat (mail_lib := fixed_mail_lib mail_without_id_and_subject)
         (image_lib := transparent_codec) "raw mail"
     = raise (EmailMissingHeaders "failed to parse: 'Message-ID', 'Subject'").
Proof.
  split; [reflexivity |].
  apply (eat_reports_every_missing_header
           (mail_lib := fixed_mail_lib mail_without_id_and_subject)
           (image_lib := transparent_codec) "raw mail");
    [discriminate | reflexivity].
Defined.

(** C3, as stated, fails: an attachment that no marker refers to and that
    is no image makes digestion fail. *)
Lemma stray_attachment_fails_digestion :
  Str.contains (html_marker "notes") "<p>minutes attached</p>" = false
  /\ digest (mail_lib := fixed_mail_lib mail_with_stray_attachment)
            (image_lib := blind_codec) mail_with_stray_attachment
     = raise (LibraryError "UnidentifiedImageError").
Proof. split; vm_compute; reflexivity. Qed.

(** C3 (amended) at the same attachment, with a codec that accepts it. *)
Lemma unreferenced_attachment_is_still_compressed_witness :
  html_body (image_lib := transparent_codec)
    {[ "text/html" := "<p>minutes attached</p>" ]}
    (mkAttachment "<notes>" (Some "base64") "bm90IGFuIGltYWdl")
  = ret {[ "text/html" := "<p>minutes attached</p>" ]}.
Proof.
  apply (unreferenced_attachment_is_still_compressed
           (image_lib := transparent_codec)
           {[ "text/html" := "<p>minutes attached</p>" ]}
           (mkAttachment "<notes>" (Some "base64") "bm90IGFuIGltYWdl")
           "<p>minutes attached</p>");
    [discriminate | reflexivity | reflexivity].
Defined.

(** C4 at a message whose two bodies refer to one attachment. *)
Lemma bodies_are_rewritten_for_each_attachment_witness :
  exists e,
    digest (mail_lib := fixed_mail_lib sample_mail)
           (image_lib := transparent_codec) sample_mail = ret e
    /\ content e !! "text/plain" = Some "See  here"
    /\ content e !! "text/html"
       = Some ("<img " ++ data_uri "base64" "iVBORw0KGgo=" ++ ">").
Proof.
  assert (Hd : { e | digest (mail_lib := fixed_mail_lib sample_mail)
                            (image_lib := transparent_codec) sample_mail = ret e })
    by (eexists; vm_compute; reflexivity).
  destruct Hd as [e Hd]. exists e. split; [exact Hd |].
  destruct (bodies_are_rewritten_for_each_attachment
              (mail_lib := fixed_mail_lib sample_mail)
              (image_lib := transparent_codec) sample_mail e Hd)
    as (Hplain & Hhtml & _).
  split.
  - rewrite (Hplain _ _ eq_refl). vm_compute. reflexivity.
  - destruct (Hhtml _ _ eq_refl) as (html' & Hrun & ->).
    vm_compute in Hrun. injection Hrun as <-. vm_compute. reflexivity.
Defined.

(** C5 at a timestamp followed by a time zone name in parentheses. *)
Lemma parse_date_drops_unconverted_tail_witness :
  parse_date (time_lib := one_date_time_lib)
    ("Sat, 01 Apr 2023 12:00:00 -0400" ++ " (EDT)") = ret noon.
Proof.
  apply (parse_date_drops_unconverted_tail (time_lib := one_date_time_lib)
           "Sat, 01 Apr 2023 12:00:00 -0400" " (EDT)" noon);
    [discriminate | reflexivity | reflexivity].
Defined.

(** C10 at the sample message, which has two parts of either kind. *)
Lemma only_first_body_part_counts_witness :
  exists e,
    digest (mail_lib := fixed_mail_lib sample_mail) (image_lib := transparent_codec)
      sample_mail = ret e
    /\ content e
       = <["text/html" := "<img " ++ data_uri "base64" "iVBORw0KGgo=" ++ ">"]>
           (<["text/plain" := "See  here"]> ∅).
Proof.
  assert (Hd : { e | digest (mail_lib := fixed_mail_lib sample_mail)
                            (image_lib := transparent_codec) sample_mail = ret e })
    by (eexists; vm_compute; reflexivity).
  destruct Hd as [e Hd]. exists e. split; [exact Hd |].
  destruct (only_first_body_part_counts
              (mail_lib := fixed_mail_lib sample_mail)
              (image_lib := transparent_codec) sample_mail
              "See [cid:img1] here"
              ("<img src=" ++ Str.dquote ++ "cid:img1" ++ Str.dquote ++ ">")
              ["second plain part"] ["second html part"])
    as (_ & Hboth & _).
  destruct (Hboth e Hd) as (html' & Hh & ->).
  vm_compute in Hh. injection Hh as <-. reflexivity.
Defined.

(** * Further properties of the code *)

(** ** [html2text]: what [get_text] returns *)

Lemma lstrip_by_idem (p : ascii -> bool) (s : string) :
  Str.lstrip_by p (Str.lstrip_by p s) = Str.lstrip_by p s.
Proof.
  induction s as [|c s IH]; [reflexivity |]. simpl.
  destruct (p c) eqn:E; [exact IH |]. simpl. now rewrite E.
Qed.

Lemma rstrip_by_idem (p : ascii -> bool) (s : string) :
  Str.rstrip_by p (Str.rstrip_by p s) = Str.rstrip_by p s.
Proof.
  induction s as [|c s IH]; [reflexivity |]. simpl.
  destruct (Str.rstrip_by p s) as [|d t] eqn:E.
  - destruct (p c) eqn:Ep; [reflexivity |]. simpl. now rewrite Ep.
  - simpl in *. now rewrite IH.
Qed.

(** [rstrip_by] keeps the first character of a text that it does not empty. *)
Lemma lstrip_rstrip (p : ascii -> bool) (s : string) :
  Str.lstrip_by p s = s -> Str.lstrip_by p (Str.rstrip_by p s) = Str.rstrip_by p s.
Proof.
  destruct s as [|c s]; [reflexivity |]. simpl.
  destruct (p c) eqn:Ep.
  - intros E. exfalso.
    assert (L : forall t, String.length (Str.lstrip_by p t) <= String.length t).
    { induction t as [|x t IHt]; simpl; [lia |]. destruct (p x); simpl; lia. }
    specialize (L s). rewrite E in L. simpl in L. lia.
  - intros _. destruct (Str.rstrip_by p s); simpl; now rewrite Ep.
Qed.

Lemma strip_by_stripped (p : ascii -> bool) (s : string) :
  let t := Str.rstrip_by p (Str.lstrip_by p s) in
  Str.lstrip_by p t = t /\ Str.rstrip_by p t = t.
Proof.
  cbv zeta. split.
  - apply lstrip_rstrip, lstrip_by_idem.
  - apply rstrip_by_idem.
Qed.

(** X1. Whatever the input, the text that [html2text] returns neither begins
    nor ends with whitespace: stripping it again changes nothing. *)
Theorem html2text_is_stripped {html_lib : HtmlLib} (html : string) :
  Str.lstrip_by Str.isspace (html2text html) = html2text html
  /\ Str.rstrip_by Str.isspace (html2text html) = html2text html.
Proof. unfold html2text, get_text, Str.strip. apply strip_by_stripped. Qed.

(** ** [html2text] on text without tags *)

Lemma contains_app (c : ascii) (a b : string) :
  Str.contains (String c "") (a ++ b)
  = Str.contains (String c "") a || Str.contains (String c "") b.
Proof.
  unfold Str.contains. induction a as [|x a IH]; [reflexivity |].
  cbn [String.append Str.find Str.startswith].
  destruct (Str.eqc c x); [reflexivity |]. cbn [andb].
  destruct (Str.find (String c "") (a ++ b)), (Str.find (String c "") a);
    simpl in *; congruence.
Qed.

Lemma drop_app_le (i : nat) (a t : string) :
  i <= String.length a -> Str.drop i (a ++ t) = Str.drop i a ++ t.
Proof.
  revert i. induction a as [|x a IH]; intros [|i] Hi; simpl in *;
    try reflexivity; try lia.
  apply IH. lia.
Qed.

Lemma drop_app_ge (i : nat) (a t : string) :
  String.length a <= i -> Str.drop i (a ++ t) = Str.drop (i - String.length a) t.
Proof.
  revert i. induction a as [|x a IH]; intros i Hi; simpl in *.
  - now rewrite Nat.sub_0_r.
  - destruct i as [|i]; [lia |]. simpl. apply IH. lia.
Qed.

Lemma length_drop (i : nat) (s : string) :
  String.length (Str.drop i s) = String.length s - i.
Proof. revert i. induction s as [|x s IH]; intros [|i]; simpl; auto. Qed.

Lemma rfind_by_last (c : ascii) (x b : string) :
  Str.contains (String c "") b = false ->
  Str.rfind_by (Str.eqc c) (x ++ String c b) = Some (String.length x).
Proof.
  intros Hb. induction x as [|y x IH]; simpl.
  - rewrite (rfind_absent c b Hb). now rewrite eqc_refl.
  - now rewrite IH.
Qed.

(** Where [rfind] finds the last [&] of a text, looking from [lo] on. *)
Lemma rfind_amp (a b : string) (lo : nat) :
  Str.contains "&" b = false -> lo <= String.length a ->
  Str.rfind_char_from "&" (a ++ "&" ++ b) lo = Some (String.length a).
Proof.
  intros Hb Hlo. unfold Str.rfind_char_from.
  rewrite drop_app_le by exact Hlo. cbn [String.append].
  rewrite rfind_by_last by exact Hb. cbn [option_map].
  rewrite length_drop. f_equal. lia.
Qed.

Lemma search_chr_found (p : ascii -> bool) (s : string) :
  forall prev i,
    is_found (Re.search_from (Re.Chr p) prev i s) = Str.any p s.
Proof.
  induction s as [|x s IH]; intros prev i; [reflexivity |].
  cbn [Re.search_from Re.match_at Re.run Str.any].
  destruct (p x); [reflexivity |]. cbn [orb]. apply IH.
Qed.

Section TagFree.
Context {html_lib : HtmlLib}.

(** What [html2text] makes of a text, given the end of text that the first
    turn of [goahead] computes. *)
Lemma html2text_held_back (s : string) :
  text_end (mkConverter true s None []) 0 = None -> html2text s = "".
Proof.
  intros He. unfold html2text, feed, new_converter, goahead, with_rawdata.
  cbn [rawdata convert_charrefs cdata_elem text_parts String.append].
  destruct s as [|x s]; [reflexivity |].
  cbn [String.length goahead_loop rawdata Nat.ltb Nat.leb].
  unfold goahead_turn. now rewrite He.
Qed.

Lemma html2text_whole_text (s : string) :
  text_end (mkConverter true s None []) 0 = Some (String.length s) ->
  html2text s = Str.strip (unescape s).
Proof.
  intros He. unfold html2text, feed, new_converter, goahead, with_rawdata.
  cbn [rawdata convert_charrefs cdata_elem text_parts String.append].
  destruct s as [|x s]; [reflexivity |].
  cbn [String.length goahead_loop rawdata Nat.ltb Nat.leb].
  unfold goahead_turn. rewrite He.
  cbn [convert_charrefs cdata_elem rawdata is_found negb andb].
  unfold Str.slice. rewrite Nat.sub_0_r. cbn [Str.drop].
  rewrite take_all, Nat.eqb_refl.
  change (0 <? String.length (String x s)) with true.
  reflexivity.
Qed.

Lemma text_end_tag_free (s : string) :
  Str.contains "<" s = false ->
  text_end (mkConverter true s None []) 0
  = match Str.rfind_char_from "&" s (String.length s - 34) with
    | Some amppos =>
        if Str.any ends_reference (Str.drop amppos s) then Some (String.length s)
        else None
    | None => Some (String.length s)
    end.
Proof.
  intros Hlt. unfold text_end.
  cbn [convert_charrefs cdata_elem rawdata is_found negb andb].
  rewrite (find_char_absent "<" s 0 Hlt). cbn [Nat.max].
  destruct (Str.rfind_char_from "&" s (String.length s - 34)) as [amppos|];
    [| reflexivity].
  unfold Re.search_pos. rewrite search_chr_found.
  fold ends_reference. now destruct (Str.any ends_reference (Str.drop amppos s)).
Qed.

(** X2. A text without tags whose last [&] stands within the last 34
    characters and is followed by neither whitespace nor a semicolon is lost
    as a whole: [feed] holds it back for a reference that may still be
    completed, [html2text] never calls [close], and the result is empty. *)
Theorem html2text_loses_text_with_open_reference (a b : string) :
  Str.contains "<" a = false -> Str.contains "<" b = false ->
  Str.contains "&" b = false ->
  Str.any ends_reference b = false ->
  String.length b <= 33 ->
  html2text (a ++ "&" ++ b) = "".
Proof.
  intros Ha Hb Hamp Hend Hlen. apply html2text_held_back.
  rewrite text_end_tag_free.
  2:{ rewrite !contains_app, Ha, Hb. reflexivity. }
  rewrite rfind_amp; [| exact Hamp | rewrite !length_app; simpl; lia].
  rewrite drop_app. cbn [String.append Str.any]. now rewrite Hend.
Qed.

(** X3. A text without tags whose last [&] is followed, somewhere, by
    whitespace or a semicolon, or stands more than 34 characters before the
    end, is converted as one piece: the result is the text with its
    references resolved by [html.unescape], stripped. *)
Theorem html2text_unescapes_tag_free_text (a b : string) :
  Str.contains "<" a = false -> Str.contains "<" b = false ->
  Str.contains "&" b = false ->
  Str.any ends_reference b = true \/ 34 <= String.length b ->
  html2text (a ++ "&" ++ b) = Str.strip (charref_sub (a ++ "&" ++ b)).
Proof.
  intros Ha Hb Hamp Hcase.
  assert (Hun : unescape (a ++ "&" ++ b) = charref_sub (a ++ "&" ++ b)).
  { unfold unescape. rewrite !contains_app. cbn.
    now rewrite orb_true_r. }
  rewrite <- Hun. apply html2text_whole_text.
  rewrite text_end_tag_free.
  2:{ rewrite !contains_app, Ha, Hb. reflexivity. }
  destruct (le_lt_dec 34 (String.length b)) as [Hlong | Hshort].
  - unfold Str.rfind_char_from.
    replace (a ++ "&" ++ b) with ((a ++ "&") ++ b) by apply app_assoc_str.
    rewrite drop_app_ge by (rewrite !length_app; simpl; lia).
    rewrite (rfind_absent "&" _ (contains_drop "&" b _ Hamp)). reflexivity.
  - destruct Hcase as [Hend | Hlong]; [| lia].
    rewrite rfind_amp; [| exact Hamp | rewrite !length_app; simpl; lia].
    rewrite drop_app. cbn [String.append Str.any]. rewrite Hend.
    now rewrite orb_true_r.
Qed.

End TagFree.

(** ** The handlers of [HTML2TextConverter] *)

Lemma dispatch_text (self : HTML2TextConverter) (e : event) :
  dispatch self e = with_text_parts (text_parts self ++ event_text e)%list self.
Proof.
  assert (Hid : with_text_parts (text_parts self ++ [])%list self = self)
    by (destruct self; cbn; now rewrite app_nil_r).
  destruct e as [tag attrs|tag attrs|tag|d|d|d|d|d];
    cbn [dispatch event_text]; auto.
  - unfold handle_starttag. now destruct (String.eqb tag "br").
  - unfold handle_startendtag, handle_starttag, handle_endtag.
    fold (is_block_tag tag).
    destruct (String.eqb tag "br") eqn:Eb.
    + apply String.eqb_eq in Eb. subst tag. reflexivity.
    + now destruct (is_block_tag tag).
  - unfold handle_endtag. fold (is_block_tag tag).
    now destruct (is_block_tag tag).
Qed.

(** X4. The handlers only ever append to [text_parts], and nothing else of
    the parser changes: after any sequence of parser events the parts are the
    earlier parts followed by, event by event, the data of a text event, one
    line feed for a [br] start tag, one line feed for an end tag of
    p, div, li, h1 .. h6, and nothing for any other tag, comment,
    declaration or processing instruction.  A self-closing [br] or block tag
    gives one line feed, not two. *)
Theorem handlers_collect_text (evs : list event) (self : HTML2TextConverter) :
  fold_left dispatch evs self
  = with_text_parts (text_parts self ++ concat (map event_text evs))%list self.
Proof.
  revert self. induction evs as [|e evs IH]; intros self.
  - destruct self. cbn. now rewrite app_nil_r.
  - cbn [fold_left map concat]. rewrite IH, dispatch_text.
    destruct self. cbn. now rewrite app_assoc.
Qed.

(** ** [eat]: the headers and the contacts *)

Section DigestOutcome.
Context {mail_lib : MailLib} {image_lib : ImageLib}.

Lemma no_missing_headers (mail : MailParser.t) :
  missing_headers mail = [] ->
  truthy (MailParser.message_id mail) = true
  /\ truthy (MailParser.date mail) = true
  /\ truthy (MailParser.from_ mail) = true
  /\ truthy (MailParser.subject mail) = true.
Proof.
  unfold missing_headers.
  destruct (truthy (MailParser.message_id mail)), (truthy (MailParser.date mail)),
    (truthy (MailParser.from_ mail)), (truthy (MailParser.subject mail));
    intros E; try discriminate E; auto.
Qed.

(** [eat] behind the test of [headers_not_found]. *)
Lemma digest_with_headers (mail : MailParser.t) (d : datetime) (n a : string)
    (rest : ContactsType) :
  missing_headers mail = [] ->
  MailParser.date mail = Some d ->
  MailParser.from_ mail = (n, a) :: rest ->
  digest mail
  = let* sender_address := _parser_email_address a in
    let* to_contact := to_contact_of mail in
    let* content := build_content mail in
    ret (mkEmail d (mkContact sender_address (Some n)) (MailParser.subject mail)
           (MailParser.headers mail !! "Thread-Topic") content to_contact
           (MailParser.message_id mail)).
Proof.
  intros Hm Hd Hf. apply no_missing_headers in Hm as (H1 & H2 & H3 & H4).
  unfold digest, nibble, to_contact_of. fold (build_content mail).
  rewrite H1, H2, H3, H4. rewrite Hd, Hf.
  destruct (MailParser.to mail) as [|[tn ta] ts].
  - cbn. destruct (_parser_email_address a); reflexivity.
  - cbn. destruct (_parser_email_address a); reflexivity.
Qed.

Lemma headers_present (mail : MailParser.t) :
  missing_headers mail = [] ->
  exists d n a rest,
    MailParser.date mail = Some d /\ MailParser.from_ mail = (n, a) :: rest
    /\ MailParser.message_id mail <> "" /\ MailParser.subject mail <> "".
Proof.
  intros Hm. apply no_missing_headers in Hm as (H1 & H2 & H3 & H4).
  destruct (MailParser.date mail) as [d|]; [| discriminate H2].
  destruct (MailParser.from_ mail) as [|[n a] rest]; [discriminate H3 |].
  exists d, n, a, rest. repeat split; auto.
  - intros E. rewrite E in H1. discriminate H1.
  - intros E. rewrite E in H4. discriminate H4.
Qed.

Ltac split_bind H :=
  repeat match type of H with
  | bind ?x _ = _ =>
      let E := fresh "E" in
      destruct x eqn:E; cbn [bind] in H; [discriminate H |]; cbn beta iota in H
  end.

(** X5. What a digested mail holds comes from the headers: the date, the
    subject and the message id are the mail's own (and not empty), the thread
    topic is the header Thread-Topic if there is one, and the sender is the
    first entry of From, its name kept and its address parsed. *)
Theorem digested_fields_come_from_headers (mail : MailParser.t) (e : Email) :
  digest mail = ret e ->
  MailParser.date mail = Some (sent e)
  /\ (subject e = MailParser.subject mail /\ subject e <> "")
  /\ (message_id e = MailParser.message_id mail /\ message_id e <> "")
  /\ thread_topic e = MailParser.headers mail !! "Thread-Topic"
  /\ exists first_name first_address others,
       MailParser.from_ mail = (first_name, first_address) :: others
       /\ name (sender e) = Some first_name
       /\ _parser_email_address first_address = ret (email (sender e)).
Proof.
  intros Hd. destruct (digest_success mail e Hd) as [Hm _].
  destruct (headers_present mail Hm) as (d & n & a & rest & Hdate & Hfrom & Hid & Hsub).
  rewrite (digest_with_headers mail d n a rest Hm Hdate Hfrom) in Hd.
  split_bind Hd. injection Hd as <-. cbn.
  repeat split; auto. exists n, a, rest. auto.
Qed.

(** X6. The recipient of a digested mail is absent exactly when To is empty
    or its first entry has neither name nor address; otherwise it is the
    first entry of To, its name kept and its address parsed. *)
Theorem to_contact_is_first_recipient (mail : MailParser.t) (e : Email) :
  digest mail = ret e ->
  (to e = None <->
   MailParser.to mail = [] \/ exists others, MailParser.to mail = ("", "") :: others)
  /\ (forall c,
        to e = Some c ->
        exists first_name first_address others,
          MailParser.to mail = (first_name, first_address) :: others
          /\ name c = Some first_name
          /\ _parser_email_address first_address = ret (email c)).
Proof.
  intros Hd. destruct (digest_success mail e Hd) as [Hm _].
  destruct (headers_present mail Hm) as (d & n & a & rest & Hdate & Hfrom & _).
  rewrite (digest_with_headers mail d n a rest Hm Hdate Hfrom) in Hd.
  split_bind Hd. injection Hd as <-. cbn [to].
  unfold to_contact_of in E0.
  destruct (MailParser.to mail) as [|[tn ta] ts].
  - injection E0 as <-. split; [| discriminate]. split; auto.
  - destruct (truthy tn || truthy ta) eqn:Et.
    + split_bind E0. injection E0 as <-. split.
      * split; [discriminate |]. intros [Hnil | [others Ho]]; [discriminate |].
        injection Ho as -> -> _. discriminate Et.
      * intros c [= <-]. exists tn, ta, ts. auto.
    + injection E0 as <-. split; [| discriminate]. split; auto. intros _. right.
      apply orb_false_elim in Et as [Hn Ha].
      destruct tn; [| discriminate Hn]. destruct ta; [| discriminate Ha].
      eauto.
Qed.

(** X7. When no required header is missing and the address parser rejects
    the address of the first sender, digestion fails with the parser's
    error, whatever the bodies and the attachments are. *)
Theorem bad_sender_address_fails_digestion
    (mail : MailParser.t) (first_name first_address : string) (others : ContactsType)
    (err : exn) :
  missing_headers mail = [] ->
  MailParser.from_ mail = (first_name, first_address) :: others ->
  _parser_email_address first_address = raise err ->
  digest mail = raise err.
Proof.
  intros Hm Hfrom Herr.
  destruct (headers_present mail Hm) as (d & n & a & rest & Hdate & Hfrom' & _).
  rewrite Hfrom in Hfrom'. injection Hfrom' as <- <- <-.
  rewrite (digest_with_headers mail d _ _ _ Hm Hdate Hfrom), Herr. reflexivity.
Qed.

(** X8. When the sender is fine and the first entry of To has a name or an
    address, an address that the parser rejects fails digestion with the
    parser's error: a mail to a named group without address is not
    digested. *)
Theorem bad_recipient_address_fails_digestion
    (mail : MailParser.t) (sender_name sender_address : string) (senders : ContactsType)
    (sender_parsed : EmailAddress)
    (first_name first_address : string) (others : ContactsType) (err : exn) :
  missing_headers mail = [] ->
  MailParser.from_ mail = (sender_name, sender_address) :: senders ->
  _parser_email_address sender_address = ret sender_parsed ->
  MailParser.to mail = (first_name, first_address) :: others ->
  first_name <> "" \/ first_address <> "" ->
  _parser_email_address first_address = raise err ->
  digest mail = raise err.
Proof.
  intros Hm Hfrom Hok Hto Hne Herr.
  destruct (headers_present mail Hm) as (d & n & a & rest & Hdate & Hfrom' & _).
  rewrite Hfrom in Hfrom'. injection Hfrom' as <- <- <-.
  rewrite (digest_with_headers mail d _ _ _ Hm Hdate Hfrom), Hok. cbn [bind ret].
  unfold to_contact_of. rewrite Hto.
  assert (Ht : truthy first_name || truthy first_address = true).
  { destruct Hne as [H | H]; apply truthy_nonempty in H; rewrite H;
      [reflexivity | apply orb_true_r]. }
  rewrite Ht, Herr. reflexivity.
Qed.

(** ** [eat]: the attachments *)

Lemma rstrip_by_last (p : ascii -> bool) (y : ascii) (t : string) :
  p y = true -> Str.rstrip_by p (t ++ String y "") = Str.rstrip_by p t.
Proof.
  intros Hy. induction t as [|c t IH]; simpl.
  - now rewrite Hy.
  - now rewrite IH.
Qed.

Lemma strip_by_last (p : ascii -> bool) (y : ascii) (s : string) :
  p y = true ->
  Str.rstrip_by p (Str.lstrip_by p (s ++ String y ""))
  = Str.rstrip_by p (Str.lstrip_by p s).
Proof.
  intros Hy. induction s as [|c s IH]; simpl.
  - now rewrite Hy.
  - destruct (p c); [exact IH |].
    change (String c (s ++ String y "")) with (String c s ++ String y "").
    now apply rstrip_by_last.
Qed.

Lemma cid_of_wrapped (cid : string) (cte : option string) (data : string) :
  cid_of (mkAttachment ("<" ++ cid ++ ">") cte data) = cid_of (mkAttachment cid cte data).
Proof.
  unfold cid_of, Str.strip_chars. cbn [content_id].
  change ("<" ++ cid ++ ">") with (String "<" (cid ++ ">")).
  cbn [Str.lstrip_by Str.any Str.eqc].
  replace (Ascii.eqb "<" "<" || (Ascii.eqb "<" ">" || false)) with true by reflexivity.
  apply strip_by_last. reflexivity.
Qed.

(** X10. An attachment whose content id is written in angle brackets is
    treated, in both loops over the attachments, as the attachment with the
    bare content id. *)
Theorem angle_brackets_around_content_id_are_dropped
    (content : gmap string string) (cid : string) (cte : option string) (data : string) :
  plain_body content (mkAttachment ("<" ++ cid ++ ">") cte data)
  = plain_body content (mkAttachment cid cte data)
  /\ html_body content (mkAttachment ("<" ++ cid ++ ">") cte data)
     = html_body content (mkAttachment cid cte data).
Proof.
  pose proof (cid_of_wrapped cid cte data) as E. unfold cid_of in E.
  cbn [content_id] in E.
  unfold plain_body, html_body. cbn [content_id payload content_transfer_encoding].
  rewrite E. split; reflexivity.
Qed.

Lemma plain_cleanup_skips (atts : list Attachment) (body : string) :
  Forall (fun a => cid_of a = "") atts -> fold_left plain_cleanup atts body = body.
Proof.
  induction 1 as [|a atts Ha _ IH]; [reflexivity |].
  cbn [fold_left]. unfold plain_cleanup at 2. now rewrite Ha.
Qed.

Lemma html_inlining_skips (atts : list Attachment) (body : string) :
  Forall (fun a => cid_of a = "") atts -> for_each html_inlining atts body = ret body.
Proof.
  induction 1 as [|a atts Ha _ IH]; [reflexivity |].
  cbn [for_each]. unfold html_inlining at 1. rewrite Ha. exact IH.
Qed.

Lemma build_content_without_ids (mail : MailParser.t) :
  Forall (fun a => cid_of a = "") (MailParser.attachments mail) ->
  build_content mail = build_content (with_attachments [] mail).
Proof.
  intros Hall. unfold build_content. cbn [with_attachments MailParser.text_plain
    MailParser.text_html MailParser.attachments fold_left for_each].
  destruct (MailParser.text_plain mail) as [|plain ps],
           (MailParser.text_html mail) as [|html hs]; try reflexivity.
  - now rewrite html_loop, html_inlining_skips.
  - now rewrite plain_loop, plain_cleanup_skips.
  - now rewrite plain_loop, html_loop, html_inlining_skips, plain_cleanup_skips.
Qed.

(** X11. Attachments whose content id is empty, or made of angle brackets
    only, play no part: digestion has the outcome it has for the mail
    without attachments, and their payloads are never handed to the
    compressor. *)
Theorem attachments_without_content_id_are_ignored (mail : MailParser.t) :
  Forall (fun a => cid_of a = "") (MailParser.attachments mail) ->
  digest mail = digest (with_attachments [] mail).
Proof.
  intros Hall.
  destruct (missing_headers mail) as [|h hs] eqn:Hm.
  - destruct (headers_present mail Hm) as (d & n & a & rest & Hdate & Hfrom & _).
    rewrite (digest_with_headers mail d n a rest Hm Hdate Hfrom).
    rewrite (digest_with_headers (with_attachments [] mail) d n a rest Hm Hdate Hfrom).
    now rewrite (build_content_without_ids mail Hall).
  - rewrite (digest_missing mail) by (rewrite Hm; discriminate).
    rewrite (digest_missing (with_attachments [] mail))
      by (change (missing_headers (with_attachments [] mail)) with (missing_headers mail);
          rewrite Hm; discriminate).
    reflexivity.
Qed.

Lemma replace_from_deletes (old : string) (s : string) :
  forall k, String.length (Str.replace_from old "" k s) <= String.length s.
Proof.
  induction s as [|c s IH]; intros k.
  - destruct k; simpl; [destruct old; simpl; lia | lia].
  - destruct k as [|k]; simpl.
    + destruct old as [|o old']; simpl; [specialize (IH 0); lia |].
      destruct (Str.eqc o c && Str.startswith old' s); simpl.
      * specialize (IH (String.length old')). lia.
      * specialize (IH 0). lia.
    + specialize (IH k). lia.
Qed.

Lemma plain_cleanup_deletes (atts : list Attachment) :
  forall body, String.length (fold_left plain_cleanup atts body) <= String.length body.
Proof.
  induction atts as [|a atts IH]; intros body; [simpl; lia |].
  cbn [fold_left]. etransitivity; [apply IH |].
  unfold plain_cleanup. destruct (String.eqb (cid_of a) ""); [lia |].
  apply replace_from_deletes.
Qed.

(** X12. A digested mail with a plaintext part has the key text/plain, and
    the body stored there is never longer than the first plaintext part: the
    loop over the attachments only takes markers out. *)
Theorem plaintext_cleanup_only_deletes (mail : MailParser.t) (e : Email)
    (plain : string) (rest : list string) :
  digest mail = ret e ->
  MailParser.text_plain mail = plain :: rest ->
  exists body,
    content e !! "text/plain" = Some body
    /\ String.length body <= String.length plain.
Proof.
  intros Hd Hp. apply digest_success in Hd as [_ Hc].
  unfold build_content in Hc. rewrite Hp in Hc. rewrite plain_loop in Hc.
  exists (fold_left plain_cleanup (MailParser.attachments mail) plain).
  split; [| apply plain_cleanup_deletes].
  destruct (MailParser.text_html mail) as [|html hs].
  - injection Hc as <-. apply lookup_insert_eq.
  - rewrite html_loop in Hc.
    destruct (for_each html_inlining _ html); [discriminate |].
    injection Hc as <-. rewrite lookup_insert_ne by discriminate.
    apply lookup_insert_eq.
Qed.

(** ** [eat]: when it fails and when it succeeds *)

Lemma inlining_failure (atts : list Attachment) :
  forall (body : string) (err : exn),
    for_each html_inlining atts body = raise err ->
    exists a, In a atts /\ cid_of a <> ""
              /\ compress_image (payload_fixed a) = raise err.
Proof.
  induction atts as [|a atts IH]; intros body err H; [discriminate H |].
  cbn [for_each] in H. unfold html_inlining at 1 in H.
  destruct (String.eqb (cid_of a) "") eqn:Ec.
  - cbn [bind ret] in H. destruct (IH _ _ H) as (b & Hin & Hb).
    exists b. split; [now right | exact Hb].
  - apply String.eqb_neq in Ec.
    fold (payload_fixed a) in H.
    destruct (compress_image (payload_fixed a)) as [e|compressed] eqn:Ei.
    + cbn [bind] in H. injection H as ->. exists a. split; [now left | auto].
    + cbn [bind ret] in H. destruct (IH _ _ H) as (b & Hin & Hb).
      exists b. split; [now right | exact Hb].
Qed.

Lemma inlining_success (atts : list Attachment) :
  (forall a, In a atts -> cid_of a <> "" ->
             exists compressed, compress_image (payload_fixed a) = ret compressed) ->
  forall body : string, exists body', for_each html_inlining atts body = ret body'.
Proof.
  induction atts as [|a atts IH]; intros H body; [now exists body |].
  cbn [for_each]. unfold html_inlining at 1.
  assert (IH' := IH (fun b Hb => H b (or_intror Hb))).
  destruct (String.eqb (cid_of a) "") eqn:Ec; [apply IH' |].
  apply String.eqb_neq in Ec.
  destruct (H a (or_introl eq_refl) Ec) as [compressed Hc].
  fold (payload_fixed a). rewrite Hc. cbn [bind ret]. apply IH'.
Qed.

Lemma build_content_failure (mail : MailParser.t) (err : exn) :
  build_content mail = raise err ->
  MailParser.text_html mail <> []
  /\ exists a, In a (MailParser.attachments mail) /\ cid_of a <> ""
               /\ compress_image (payload_fixed a) = raise err.
Proof.
  unfold build_content. destruct (MailParser.text_html mail) as [|html hs].
  - destruct (MailParser.text_plain mail); discriminate.
  - intros H. split; [discriminate |].
    destruct (MailParser.text_plain mail) as [|plain ps].
    + rewrite html_loop in H.
      destruct (for_each html_inlining _ html) as [e|b] eqn:E; [| discriminate H].
      injection H as ->. exact (inlining_failure _ _ _ E).
    + rewrite plain_loop, html_loop in H.
      destruct (for_each html_inlining _ html) as [e|b] eqn:E; [| discriminate H].
      injection H as ->. exact (inlining_failure _ _ _ E).
Qed.

(** X13. Digestion fails for one of three reasons only: a required header
    is missing (the error is EmailMissingHeaders with the list of names); the
    address parser rejects the address of the first sender or of the first
    recipient (the error is the parser's); or there is an HTML body and an
    attachment with a content id fails compression (the error is the
    compressor's).  In particular none of the assertions behind the header
    test fires, and neither [sender[0]] nor [to[0]] is out of range. *)
Theorem digestion_fails_for_three_reasons (mail : MailParser.t) (err : exn) :
  digest mail = raise err ->
  (missing_headers mail <> []
   /\ err = EmailMissingHeaders
              ("failed to parse: " ++ Str.join ", " (map repr (missing_headers mail))))
  \/ (exists first_name first_address others,
        (MailParser.from_ mail = (first_name, first_address) :: others
         \/ MailParser.to mail = (first_name, first_address) :: others)
        /\ _parser_email_address first_address = raise err)
  \/ (MailParser.text_html mail <> []
      /\ exists a, In a (MailParser.attachments mail) /\ cid_of a <> ""
                   /\ compress_image (payload_fixed a) = raise err).
Proof.
  intros Hd. destruct (missing_headers mail) as [|h hs] eqn:Hm.
  - right.
    destruct (headers_present mail Hm) as (d & n & a & rest & Hdate & Hfrom & _).
    rewrite (digest_with_headers mail d n a rest Hm Hdate Hfrom) in Hd.
    destruct (_parser_email_address a) as [e1|addr] eqn:Ea.
    { injection Hd as ->. left. exists n, a, rest. auto. }
    cbn [bind] in Hd.
    destruct (to_contact_of mail) as [e2|tc] eqn:Et.
    { injection Hd as ->. left. unfold to_contact_of in Et.
      destruct (MailParser.to mail) as [|[tn ta] ts]; [discriminate Et |].
      destruct (truthy tn || truthy ta); [| discriminate Et].
      destruct (_parser_email_address ta) as [e3|] eqn:Eta; [| discriminate Et].
      injection Et as ->. exists tn, ta, ts. auto. }
    cbn [bind] in Hd.
    destruct (build_content mail) as [e4|c] eqn:Ec; [| discriminate Hd].
    injection Hd as ->. right. now apply build_content_failure.
  - left. split; [discriminate |].
    rewrite digest_missing in Hd by (rewrite Hm; discriminate).
    rewrite Hm in Hd. now injection Hd as <-.
Qed.

(** X14. Digestion returns an Email when the four required headers are
    there, the address parser accepts the address of the first sender and
    that of the first recipient (if that one has a name or an address), and,
    if there is an HTML body, every attachment with a content id can be
    compressed. *)
Theorem digestion_succeeds (mail : MailParser.t) :
  missing_headers mail = [] ->
  (forall first_name first_address others,
     MailParser.from_ mail = (first_name, first_address) :: others ->
     exists parsed, _parser_email_address first_address = ret parsed) ->
  (forall first_name first_address others,
     MailParser.to mail = (first_name, first_address) :: others ->
     first_name <> "" \/ first_address <> "" ->
     exists parsed, _parser_email_address first_address = ret parsed) ->
  (MailParser.text_html mail <> [] ->
   forall a, In a (MailParser.attachments mail) -> cid_of a <> "" ->
             exists compressed, compress_image (payload_fixed a) = ret compressed) ->
  exists e, digest mail = ret e.
Proof.
  intros Hm Hfrom Hto Himg.
  destruct (headers_present mail Hm) as (d & n & a & rest & Hdate & Hf & _).
  rewrite (digest_with_headers mail d n a rest Hm Hdate Hf).
  destruct (Hfrom n a rest Hf) as [addr ->]. cbn [bind ret].
  assert (Ht : exists tc, to_contact_of mail = ret tc).
  { unfold to_contact_of. destruct (MailParser.to mail) as [|[tn ta] ts]; [eauto |].
    destruct (truthy tn || truthy ta) eqn:E; [| eauto].
    destruct (Hto tn ta ts eq_refl) as [p ->]; [| cbn; eauto].
    apply orb_prop in E as [E | E]; [left | right]; intros ->; discriminate E. }
  destruct Ht as [tc ->]. cbn [bind ret].
  assert (Hc : exists c, build_content mail = ret c).
  { unfold build_content. destruct (MailParser.text_html mail) as [|html hs]; [eauto |].
    specialize (Himg ltac:(discriminate)).
    destruct (MailParser.text_plain mail) as [|plain ps].
    - rewrite html_loop.
      destruct (inlining_success _ Himg html) as [b ->]. cbn; eauto.
    - rewrite plain_loop, html_loop.
      destruct (inlining_success _ Himg html) as [b ->]. cbn; eauto. }
  destruct Hc as [c ->]. cbn [bind ret]. eauto.
Qed.

End DigestOutcome.

(** ** [eat]: a mail without From *)

Section AbsentSender.
Context {mail_lib : MailLib} {image_lib : ImageLib}.

(** C1 (a defect of the code). A mail without From is not reported as
    lacking it.  The mail library renders the absent header as one entry with
    an empty name and an empty address; that list is not empty, so [nibble]
    takes From to be there.  "From" is then never among the names listed:
    when other required headers are missing, the error lists those only; and
    when none is, no [EmailMissingHeaders] is raised at all, the empty
    address goes to the address parser, and the parser's error is the
    outcome. *)
Theorem absent_sender_is_not_reported (raw : string) :
  MailParser.from_ (parse_from_string raw) = absent_addresses ->
  ~ In "From" (missing_headers (parse_from_string raw))
  /\ (missing_headers (parse_from_string raw) <> [] ->
      eat raw
      = raise (EmailMissingHeaders
                 ("failed to parse: "
                  ++ Str.join ", "
                       (map repr (missing_headers (parse_from_string raw))))))
  /\ (missing_headers (parse_from_string raw) = [] ->
      forall err, _parser_email_address "" = raise err -> eat raw = raise err).
Proof.
  intros Hfrom. split; [| split].
  - unfold missing_headers. rewrite Hfrom.
    change (truthy absent_addresses) with true. cbn [app].
    destruct (truthy (MailParser.message_id (parse_from_string raw))),
      (truthy (MailParser.date (parse_from_string raw))),
      (truthy (MailParser.subject (parse_from_string raw)));
      cbn; intros H; repeat (destruct H as [H | H]; [discriminate H |]); exact H.
  - intros Hm. unfold eat. now rewrite (digest_missing _ Hm).
  - intros Hm err Herr. unfold eat.
    destruct (headers_present _ Hm) as (d & n & a & rest & Hdate & Hf & _).
    rewrite (digest_with_headers _ d n a rest Hm Hdate Hf).
    rewrite Hfrom in Hf. injection Hf as <- <- <-. now rewrite Herr.
Qed.

End AbsentSender.

Lemma plain_cleanup_by_ids (atts1 atts2 : list Attachment) :
  map cid_of atts1 = map cid_of atts2 ->
  forall body, fold_left plain_cleanup atts1 body = fold_left plain_cleanup atts2 body.
Proof.
  revert atts2. induction atts1 as [|a atts1 IH]; intros [|b atts2] E body;
    try discriminate E; [reflexivity |].
  cbn [map] in E. injection E as Eab E. cbn [fold_left].
  assert (Hab : plain_cleanup body a = plain_cleanup body b)
    by (unfold plain_cleanup; now rewrite Eab).
  rewrite Hab. now apply IH.
Qed.

(** X9. Of the attachments of a mail without an HTML part only the content
    ids count: digestion has the same outcome with any image library and
    with any other attachments of the same content ids.  Payloads and
    transfer encodings are not looked at, the image library is never called,
    and an attachment that is no image cannot fail the digestion of a
    plaintext mail. *)
Theorem plaintext_mail_ignores_payloads
    {mail_lib : MailLib} (codec1 codec2 : ImageLib) (mail : MailParser.t)
    (atts : list Attachment) :
  MailParser.text_html mail = [] ->
  map cid_of atts = map cid_of (MailParser.attachments mail) ->
  digest (image_lib := codec1) mail
  = digest (image_lib := codec2) (with_attachments atts mail).
Proof.
  intros Hh Hids.
  destruct (missing_headers mail) as [|h hs] eqn:Hm.
  - destruct (headers_present mail Hm) as (d & n & a & rest & Hdate & Hfrom & _).
    rewrite (digest_with_headers (image_lib := codec1) mail d n a rest Hm Hdate Hfrom).
    rewrite (digest_with_headers (image_lib := codec2) (with_attachments atts mail)
               d n a rest Hm Hdate Hfrom).
    assert (Hc : build_content (image_lib := codec1) mail
                 = build_content (image_lib := codec2) (with_attachments atts mail)).
    { unfold build_content.
      cbn [with_attachments MailParser.text_plain MailParser.text_html
           MailParser.attachments].
      rewrite Hh. destruct (MailParser.text_plain mail) as [|plain ps];
        [reflexivity |].
      now rewrite !plain_loop, (plain_cleanup_by_ids _ _ Hids). }
    now rewrite Hc.
  - rewrite (digest_missing mail) by (rewrite Hm; discriminate).
    rewrite (digest_missing (with_attachments atts mail))
      by (change (missing_headers (with_attachments atts mail))
            with (missing_headers mail);
          rewrite Hm; discriminate).
    reflexivity.
Qed.

(** ** The address pattern and [EmailAddress.__str__] *)

Lemma all_app (p : ascii -> bool) (a b : string) :
  Str.all p (a ++ b) = Str.all p a && Str.all p b.
Proof.
  induction a as [|x a IH]; simpl; [reflexivity |]. now rewrite IH, andb_assoc.
Qed.

Lemma at_end_cases (rest : string) :
  Re.at_end rest = true -> rest = "" \/ rest = String Str.LF "".
Proof.
  destruct rest as [|c [|d rest]]; simpl; auto; [| discriminate].
  intros E. apply Ascii.eqb_eq in E. subst. auto.
Qed.

Lemma address_shape (prev : option ascii) (w rest : string) (c c' : Re.captures) :
  denotes address_pattern prev w rest c c' ->
  exists u d,
    w = u ++ "@" ++ d /\ c' 1 = Some u /\ c' 2 = Some d
    /\ (u <> "" /\ Str.all address_local_char u = true)
    /\ Str.all address_domain_char d = true
    /\ Re.at_end rest = true.
Proof.
  intros D. unfold address_pattern in D.
  peel D as u t1 Du. peel D as at_ t2 Dat. peel D as d t3 Dd.
  destruct Du as (cu & [[Hune Hu] ->] & ->).
  apply denotes_lit in Dat as [(x & -> & Ex) ->].
  apply Ascii.eqb_eq in Ex. subst x.
  destruct Dd as (cd & Dd & ->).
  destruct D as [[-> Hend] ->].
  pose proof (denotes_groupless
                (Re.seq [Re.Plus address_domain_char; Re.lit false ".";
                         Re.Chr ascii_alpha; Re.Plus ascii_alpha])
                eq_refl _ _ _ _ _ Dd) as ->.
  assert (Hd : Str.all address_domain_char d = true).
  { cbn [Re.seq] in Dd.
    destruct Dd as (d1 & r1 & c1 & -> & [[_ H1] _] & Dd).
    destruct Dd as (d2 & r2 & c2 & -> & Ddot & Dd).
    apply denotes_lit in Ddot as [(x & -> & Ex) _].
    apply Ascii.eqb_eq in Ex. subst x.
    destruct Dd as (d3 & d4 & c3 & -> & [(l & -> & Hl) _] & [[_ H4] _]).
    rewrite !all_app, H1. cbn [Str.all andb].
    assert (La : forall s, Str.all ascii_alpha s = true ->
                           Str.all address_domain_char s = true).
    { induction s as [|y s IH]; simpl; [auto |].
      intros Hs. apply andb_prop in Hs as [Hy Hs].
      unfold address_domain_char at 1, ascii_alnum. rewrite Hy. simpl. auto. }
    rewrite (La _ H4). unfold address_domain_char, ascii_alnum. rewrite Hl.
    reflexivity. }
  exists u, d. rewrite app_empty_r in *. subst.
  repeat split; auto.
Qed.

(** X15. What the address pattern matches from the start of a raw address
    is the whole of it: the groups username and domain, put together again by
    [EmailAddress.__str__], give the raw address back, up to one final line
    feed that [$] lets through.  The user name is not empty, and both groups
    hold characters of their sets only. *)
Theorem matched_address_renders_back (raw : string) (m : Re.match_obj) :
  Re.match_pos address_pattern raw 0 = Some m ->
  exists user dom,
    Re.group m 1 = Some user /\ Re.group m 2 = Some dom
    /\ (raw = EmailAddress_str (mkEmailAddress user dom)
        \/ raw = EmailAddress_str (mkEmailAddress user dom) ++ String Str.LF "")
    /\ user <> ""
    /\ Str.all address_local_char user = true
    /\ Str.all address_domain_char dom = true.
Proof.
  unfold Re.match_pos, Re.match_at. cbn [Str.drop Re.char_before]. intros Hm.
  apply run_sound in Hm as (w & rest & c' & -> & D & Hk).
  injection Hk as <-. unfold Re.group. cbn [Re.m_groups].
  apply address_shape in D as (u & d & -> & H1 & H2 & [Hne Hu] & Hd & Hend).
  exists u, d. unfold EmailAddress_str. cbn [username domain].
  repeat split; auto.
  apply at_end_cases in Hend as [-> | ->].
  - left. now rewrite app_empty_r.
  - right. now rewrite !app_assoc_str.
Qed.

Lemma split_at_sign (u1 d1 u2 d2 : string) :
  Str.any (Str.eqc "@") u1 = false -> Str.any (Str.eqc "@") u2 = false ->
  u1 ++ "@" ++ d1 = u2 ++ "@" ++ d2 -> u1 = u2 /\ d1 = d2.
Proof.
  revert u2. induction u1 as [|x u1 IH]; intros [|y u2] H1 H2 E; simpl in E.
  - injection E as ->. auto.
  - injection E as <- _. vm_compute in H2. discriminate.
  - injection E as -> _. vm_compute in H1. discriminate.
  - injection E as <- E. cbn [Str.any] in H1, H2.
    apply orb_false_elim in H1 as [_ H1].
    apply orb_false_elim in H2 as [_ H2].
    destruct (IH _ H1 H2 E) as [-> ->]. auto.
Qed.

(** X16. [EmailAddress.__str__] tells addresses apart: two different
    addresses whose user names hold no [@] are rendered differently. *)
Theorem distinct_addresses_render_differently (a b : EmailAddress) :
  Str.any (Str.eqc "@") (username a) = false ->
  Str.any (Str.eqc "@") (username b) = false ->
  a <> b -> EmailAddress_str a <> EmailAddress_str b.
Proof.
  destruct a as [u1 d1], b as [u2 d2]. unfold EmailAddress_str. cbn [username domain].
  intros H1 H2 Hne E. apply Hne.
  destruct (split_at_sign _ _ _ _ H1 H2 E) as [-> ->]. reflexivity.
Qed.

(** ** [parse_date]: the errors it passes on *)

(** X17. An error of [strptime] that is no ValueError, or a ValueError
    whose message does not speak of unconverted data, is passed on as it is:
    [parse_date] makes no second attempt. *)
Theorem parse_date_passes_other_errors_on {time_lib : TimeLib} (date : string)
    (e : exn) :
  strptime date "%a, %d %b %Y %H:%M:%S %z" = raise e ->
  (forall msg, e = ValueError msg ->
               Str.contains "unconverted data remains: " msg = false) ->
  parse_date date = raise e.
Proof.
  intros Hs Hmsg. unfold parse_date. rewrite Hs. cbn [raise].
  destruct e as [m|msg| | |cls]; try reflexivity.
  specialize (Hmsg msg eq_refl). apply contains_false_find in Hmsg.
  unfold Str.partition. now rewrite Hmsg.
Qed.

(** ** [Email.color]: texts without and with an announcement *)

Lemma lower_str_app (a b : string) : lower_str (a ++ b) = lower_str a ++ lower_str b.
Proof. induction a as [|x a IH]; simpl; [reflexivity | now rewrite IH]. Qed.

Lemma find_inside (sub a b : string) : Str.find sub (a ++ sub ++ b) <> None.
Proof.
  induction a as [|x a IH].
  - cbn [String.append]. now rewrite find_at_start.
  - cbn [String.append Str.find].
    destruct (Str.startswith sub (String x (a ++ sub ++ b))); [discriminate |].
    destruct (Str.find sub (a ++ sub ++ b)); [discriminate | contradiction].
Qed.

(** X18. A mail whose plaintext does not hold the words "for bc-talk", in
    whatever case, is no dormspam and has no colour. *)
Theorem no_marker_no_dormspam {html_lib : HtmlLib} (e : Email) :
  Str.contains "for bc-talk" (lower_str (plaintext e)) = false ->
  color e = None /\ dormspam e = false.
Proof.
  intros Hc. assert (Hn : color e = None).
  { destruct (color e) as [c|] eqn:Ec; [| reflexivity]. exfalso.
    apply color_of_shape in Ec as (pre & ws & f & post & Ht & _ & _ & _ & _ & Hf).
    apply contains_false_find in Hc. rewrite Ht in Hc.
    replace (pre ++ c ++ ws ++ f ++ post) with ((pre ++ c ++ ws) ++ f ++ post) in Hc
      by now rewrite !app_assoc_str.
    rewrite !lower_str_app, Hf in Hc.
    exact (find_inside _ _ _ Hc). }
  split; [exact Hn |]. unfold dormspam. now rewrite Hn.
Qed.

Lemma dormspam_pattern_split :
  DORMSPAM_PATTERN = Re.seq (dormspam_head ++ dormspam_tail).
Proof. reflexivity. Qed.

Lemma color_word_char_class (c : ascii) :
  color_word_char c = true -> color_class c = true /\ Str.isspace c = false.
Proof.
  destruct c as [[] [] [] [] [] [] [] []]; vm_compute; intros E;
    try discriminate E; auto.
Qed.

Lemma all_color_word_class (w : string) :
  Str.all color_word_char w = true -> Str.all color_class w = true.
Proof.
  induction w as [|c w IH]; simpl; [auto |].
  intros H. apply andb_prop in H as [Hc Hw].
  destruct (color_word_char_class c Hc) as [-> _]. simpl. auto.
Qed.

Lemma star_takes_prefix {A : Type} (p : ascii -> bool) (w sfx : string) :
  forall (prev : option ascii) (k : option ascii -> string -> option A) (r : A),
    Str.all p w = true ->
    Re.star p (last_of prev w) sfx k = Some r ->
    Re.star p prev (w ++ sfx) k = Some r.
Proof.
  induction w as [|c w IH]; intros prev k r Hall Hk; [exact Hk |].
  simpl in Hall. apply andb_prop in Hall as [Hc Hw].
  cbn [String.append Re.star]. rewrite Hc.
  rewrite (IH (Some c) k r Hw Hk). reflexivity.
Qed.

Lemma star_cons_true {A : Type} (p : ascii -> bool) (prev : option ascii)
    (a : ascii) (s : string) (k : option ascii -> string -> option A) :
  p a = true ->
  Re.star p prev (String a s) k
  = Re.orelse (Re.star p (Some a) s k) (k prev (String a s)).
Proof. intros H. cbn [Re.star]. now rewrite H. Qed.

Lemma star_ext {A : Type} (p : ascii -> bool) (s : string) :
  forall prev (k1 k2 : option ascii -> string -> option A),
    (forall q t, k1 q t = k2 q t) -> Re.star p prev s k1 = Re.star p prev s k2.
Proof.
  induction s as [|a s IH]; intros prev k1 k2 H; simpl; [apply H |].
  destruct (p a); [| apply H]. now rewrite (IH _ k1 k2 H), H.
Qed.

Lemma run_ext {A : Type} (r : Re.regex) :
  forall prev s c (k1 k2 : option ascii -> string -> Re.captures -> option A),
    (forall q t d, k1 q t d = k2 q t d) ->
    Re.run r prev s c k1 = Re.run r prev s c k2.
Proof.
  induction r as [|p|r1 IH1 r2 IH2|r1 IH1 r2 IH2|r1 IH1|p|p|n r1 IH1| |];
    intros prev s c k1 k2 H; simpl.
  - apply H.
  - destruct s; [reflexivity |]. now destruct (p a).
  - apply IH1. intros. now apply IH2.
  - now rewrite (IH1 _ _ _ k1 k2 H), (IH2 _ _ _ k1 k2 H).
  - now rewrite (IH1 _ _ _ k1 k2 H), H.
  - apply star_ext. intros. apply H.
  - destruct s; [reflexivity |]. destruct (p a); [| reflexivity].
    apply star_ext. intros. apply H.
  - apply IH1. intros. apply H.
  - now rewrite H.
  - now rewrite H.
Qed.

Lemma run_seq_cons {A : Type} (r : Re.regex) (rs : list Re.regex) :
  forall prev s c (k : option ascii -> string -> Re.captures -> option A),
    Re.run (Re.seq (r :: rs)) prev s c k
    = Re.run r prev s c (fun q t d => Re.run (Re.seq rs) q t d k).
Proof.
  intros. destruct rs as [|r' rs]; [| reflexivity].
  cbn [Re.seq]. apply run_ext. reflexivity.
Qed.

Lemma run_seq_app {A : Type} (l1 l2 : list Re.regex) :
  forall prev s c (k : option ascii -> string -> Re.captures -> option A),
    Re.run (Re.seq (l1 ++ l2)) prev s c k
    = Re.run (Re.seq l1) prev s c (fun q t d => Re.run (Re.seq l2) q t d k).
Proof.
  induction l1 as [|r l1 IH]; intros prev s c k; [reflexivity |].
  cbn [app]. rewrite !run_seq_cons. apply run_ext. intros. apply IH.
Qed.

(** The opening "Bcc'd to all dorms;": when what follows can be matched, it
    is matched from behind the semicolon. *)
Lemma head_first {A : Type} (prev : option ascii) (t : string)
    (k : option ascii -> string -> Re.captures -> option A) :
  Re.isword_opt prev = false ->
  (forall c, k (Some ";"%char) t c <> None) ->
  exists c1,
    Re.run (Re.seq dormspam_head) prev ("Bcc'd to all dorms;" ++ t) Re.no_captures k
    = k (Some ";"%char) t c1.
Proof.
  intros Hp Hk. unfold dormspam_head. rewrite run_seq_cons.
  cbn [Re.run String.append]. unfold Re.at_boundary. rewrite Hp.
  cbn [Re.head xorb]. change (Re.isword_opt (Some "B"%char)) with true. cbn iota.
  eexists. vm_compute.
  match goal with
  | |- context [k (Some ";"%char) t ?c] =>
      tryif is_evar c then fail else
        (pose proof (Hk c) as Hc;
         destruct (k (Some ";"%char) t c) as [r|] eqn:E; [| congruence])
  end.
  symmetry. exact E.
Qed.

(** The marker " for bc-talk" is matched in one way. *)
Lemma marker_matches {A : Type} (rest : string) (prev : option ascii)
    (c : Re.captures) (k : option ascii -> string -> Re.captures -> option A) :
  starts_with_word rest = false ->
  Re.run (Re.seq dormspam_marker) prev (" for bc-talk" ++ rest) c k
  = k (Some "k"%char) rest c.
Proof.
  intros H.
  change (Re.run (Re.seq dormspam_marker) prev (" for bc-talk" ++ rest) c k)
    with (if Re.at_boundary (Some "k"%char) rest then k (Some "k"%char) rest c
          else None).
  destruct rest as [|x rest]; [reflexivity |].
  unfold Re.at_boundary. simpl in H |- *. unfold Re.isword_opt. now rewrite H.
Qed.

(** Where the marker is matched, the text reads "for bc-talk" up to case. *)
Lemma marker_sound {A : Type} (q : option ascii) (t : string) (c : Re.captures)
    (k : option ascii -> string -> Re.captures -> option A) (r : A) :
  Re.run (Re.seq dormspam_marker) q t c k = Some r ->
  exists a b, lower_str t = a ++ "for bc-talk" ++ b.
Proof.
  intros H. apply run_sound in H as (w & rest & c' & -> & D & _).
  unfold dormspam_marker in D.
  peel D as w1 t1 D1. peel D as w2 t2 D2.
  apply denotes_lits_ignorecase in D2 as [E2 _].
  exists (lower_str w1), (lower_str t2 ++ lower_str rest).
  subst. now rewrite !lower_str_app, E2, !app_assoc_str.
Qed.

Lemma marker_absent {A : Type} (pre t : string) (q : option ascii) (c : Re.captures)
    (k : option ascii -> string -> Re.captures -> option A) :
  Str.contains "for bc-talk" (lower_str (pre ++ t)) = false ->
  Re.run (Re.seq dormspam_marker) q t c k = None.
Proof.
  intros Hc. destruct (Re.run _ q t c k) as [r|] eqn:E; [| reflexivity].
  exfalso. apply marker_sound in E as (a & b & E).
  apply contains_false_find in Hc. rewrite lower_str_app, E in Hc.
  rewrite <- app_assoc_str in Hc. exact (find_inside _ _ _ Hc).
Qed.

Lemma star_none {A : Type} (p : ascii -> bool) (s : string) :
  forall (prev : option ascii) (k : option ascii -> string -> option A),
    (forall pre t q, s = pre ++ t -> k q t = None) ->
    Re.star p prev s k = None.
Proof.
  induction s as [|a s IH]; intros prev k H; cbn [Re.star].
  - now apply (H "").
  - rewrite (H "" (String a s) prev eq_refl).
    destruct (p a); [| reflexivity].
    rewrite IH; [reflexivity |].
    intros pre t q ->. now apply (H (String a pre)).
Qed.

(** Inside the marker, and behind it in a text without a second marker, there
    is no place where the marker starts. *)
Lemma marker_not_inside {A : Type} (rest : string) (f : string -> Re.captures)
    (k : option ascii -> string -> Re.captures -> option A) :
  Str.contains "for bc-talk" (lower_str rest) = false ->
  Re.star color_class (Some " "%char) ("for bc-talk" ++ rest)
    (fun q t => Re.run (Re.seq dormspam_marker) q t (f t) k) = None.
Proof.
  intros Hc. apply star_none. intros pre t q E.
  do 11 (destruct pre as [|? pre];
         [cbn in E; subst t; reflexivity | cbn in E; injection E as _ E]).
  apply (marker_absent pre). now rewrite <- E.
Qed.

Lemma tail_matches {A : Type} (a : ascii) (w rest : string) (prev : option ascii)
    (c : Re.captures) (k : option ascii -> string -> Re.captures -> option A) (r : A) :
  color_word_char a = true -> Str.all color_word_char w = true ->
  starts_with_word rest = false ->
  Str.contains "for bc-talk" (lower_str rest) = false ->
  k (Some "k"%char) rest (Re.set_group 2 (String a w) c) = Some r ->
  Re.run (Re.seq dormspam_tail) prev
    (String " " (String a (w ++ " for bc-talk" ++ rest))) c k
  = Some r.
Proof.
  intros Ha Hw Hb Hc Hk. destruct (color_word_char_class a Ha) as [Hcls Hsp].
  unfold dormspam_tail. rewrite run_seq_cons.
  cbn [Re.run]. change (Str.isspace " ") with true. cbn iota.
  cbn [Re.star]. rewrite Hsp.
  rewrite run_seq_cons. cbn [Re.run]. rewrite Hcls.
  apply star_takes_prefix; [now apply all_color_word_class |].
  change (" for bc-talk" ++ rest) with (String " " ("for bc-talk" ++ rest)).
  rewrite (star_cons_true color_class _ " " ("for bc-talk" ++ rest)) by reflexivity.
  rewrite (marker_not_inside rest
    (fun t => Re.set_group 2
       (Re.consumed (String a (w ++ String " " ("for bc-talk" ++ rest))) t) c) k Hc).
  cbn [Re.orelse].
  change (String " " ("for bc-talk" ++ rest)) with (" for bc-talk" ++ rest).
  rewrite (marker_matches rest _ _ _ Hb).
  rewrite <- Hk. do 2 f_equal.
  exact (consumed_app (String a w) (" for bc-talk" ++ rest)).
Qed.

Lemma bB_lower (x : ascii) : Re.one_of true "bB" x = true -> Str.lower x = "b"%char.
Proof.
  destruct x as [[] [] [] [] [] [] [] []]; vm_compute; intros E;
    try discriminate E; reflexivity.
Qed.

(** A match of the pattern starts with "bcc", in either case. *)
Lemma match_starts_bcc (prev : option ascii) (i : nat) (t : string) (m : Re.match_obj) :
  Re.match_at DORMSPAM_PATTERN prev i t = Some m ->
  Str.startswith "bcc" (lower_str t) = true.
Proof.
  unfold Re.match_at. intros H.
  apply run_sound in H as (w & rest & c' & -> & D & _).
  unfold DORMSPAM_PATTERN in D.
  peel D as a1 t1 D1. peel D as a2 t2 D2. peel D as a3 t3 D3.
  destruct D1 as [[-> _] _]. destruct D2 as [(x & -> & Hx) _].
  apply denotes_lits_ignorecase in D3 as [E3 _].
  subst. cbn [String.append lower_str]. rewrite (bB_lower x Hx).
  rewrite !lower_str_app, E3. reflexivity.
Qed.

Lemma startswith_split (p s : string) :
  Str.startswith p s = true -> exists s', s = p ++ s'.
Proof.
  revert s. induction p as [|a p IH]; intros s H; [now exists s |].
  destruct s as [|b s]; [discriminate |]. cbn [Str.startswith] in H.
  apply andb_prop in H as [Hab Hs]. apply Ascii.eqb_eq in Hab as ->.
  destruct (IH s Hs) as [s' ->]. now exists s'.
Qed.

(** In front of the announcement, a text without "bcc" leaves no place where
    a match could start. *)
Lemma no_start_before (p1 p2 t : string) :
  Str.contains "bcc" (lower_str (p1 ++ p2)) = false -> p2 <> "" ->
  Str.startswith "bcc" (lower_str (p2 ++ "Bcc'd" ++ t)) = false.
Proof.
  intros Hc Hne. apply contains_false_find in Hc.
  destruct p2 as [|x [|y [|z p2]]]; [contradiction | | |].
  - cbn [Str.startswith lower_str String.append].
    change (Str.eqc "c" (Str.lower "B")) with false. now rewrite andb_false_r.
  - cbn [Str.startswith lower_str String.append].
    change (Str.eqc "c" (Str.lower "B")) with false. now rewrite !andb_false_r.
  - destruct (Str.startswith "bcc"
                (lower_str (String x (String y (String z p2)) ++ "Bcc'd" ++ t)))
      eqn:E; [exfalso | reflexivity].
    assert (E' : Str.startswith "bcc"
                   (lower_str (String x (String y (String z p2)))) = true).
    { cbn [Str.startswith lower_str String.append] in E |- *. exact E. }
    apply startswith_split in E' as [s' E'].
    rewrite lower_str_app, E' in Hc. exact (find_inside _ _ _ Hc).
Qed.

Lemma search_skips (pre t : string) :
  forall (prev : option ascii) (i : nat),
    (forall p1 p2, pre = p1 ++ p2 -> p2 <> "" ->
                   Str.startswith "bcc" (lower_str (p2 ++ t)) = false) ->
    Re.search_from DORMSPAM_PATTERN prev i (pre ++ t)
    = Re.search_from DORMSPAM_PATTERN (last_of prev pre) (i + String.length pre) t.
Proof.
  induction pre as [|x pre IH]; intros prev i H.
  - cbn [String.append last_of String.length]. now rewrite Nat.add_0_r.
  - cbn [String.append Re.search_from].
    destruct (Re.match_at DORMSPAM_PATTERN prev i (String x (pre ++ t)))
      as [m|] eqn:Hm.
    + apply match_starts_bcc in Hm.
      pose proof (H "" (String x pre) eq_refl ltac:(discriminate)) as Hn.
      cbn [String.append] in Hn. congruence.
    + rewrite IH.
      * cbn [last_of String.length]. now rewrite Nat.add_succ_r.
      * intros p1 p2 -> Hne. now apply (H (String x p1) p2).
Qed.

(** X19. A plaintext that announces its colour is found to do so.  Let the
    text read: some text without "bcc" (in any case) that does not end in a
    word character; then "Bcc'd to all dorms; ", a colour made of word
    characters, [*] and [-], and " for bc-talk"; then a rest that does not
    begin with a word character and does not hold "for bc-talk" again.  Then
    the mail is a dormspam and its colour is exactly the colour written. *)
Theorem announced_color_is_found {html_lib : HtmlLib} (e : Email)
    (pre w rest : string) :
  Str.contains "bcc" (lower_str pre) = false -> ends_with_word pre = false ->
  w <> "" -> Str.all color_word_char w = true ->
  starts_with_word rest = false ->
  Str.contains "for bc-talk" (lower_str rest) = false ->
  plaintext e = pre ++ "Bcc'd to all dorms; " ++ w ++ " for bc-talk" ++ rest ->
  color e = Some w /\ dormspam e = true.
Proof.
  intros Hpre Hend Hne Hw Hb Hc Ht.
  assert (Hcol : color e = Some w).
  { unfold color, color_of, Re.search. rewrite Ht.
    destruct w as [|a w]; [contradiction |].
    cbn [Str.all] in Hw. apply andb_prop in Hw as [Ha Hw].
    set (text := "Bcc'd to all dorms; " ++ String a w ++ " for bc-talk" ++ rest).
    rewrite search_skips.
    2:{ intros p1 p2 -> Hp2. now apply (no_start_before p1 p2). }
    assert (Hm : exists m,
               Re.match_at DORMSPAM_PATTERN (last_of None pre)
                 (0 + String.length pre) text = Some m
               /\ Re.group m 2 = Some (String a w)).
    { unfold Re.match_at. rewrite dormspam_pattern_split, run_seq_app.
      set (k := fun (_ : option ascii) (t : string) (c : Re.captures) =>
                  Some (Re.MatchObj (0 + String.length pre)
                          (0 + String.length pre
                           + (String.length text - String.length t)) c)).
      destruct (head_first (last_of None pre)
                  (String " " (String a (w ++ " for bc-talk" ++ rest)))
                  (fun q t d => Re.run (Re.seq dormspam_tail) q t d k) Hend)
        as [c1 E].
      - intros c. now rewrite (tail_matches a w rest _ c k _ Ha Hw Hb Hc eq_refl).
      - rewrite (tail_matches a w rest _ c1 k _ Ha Hw Hb Hc eq_refl) in E.
        eexists. split; [exact E |]. reflexivity. }
    destruct Hm as (m & Hm & Hg).
    destruct text; cbn [Re.search_from]; rewrite Hm; exact Hg. }
  split; [exact Hcol |]. unfold dormspam. rewrite Hcol.
  destruct w; [contradiction | reflexivity].
Qed.

(** ** [Email.color]: the phrase between the clause and the marker *)

(** ** The matcher tries the longest repetition first *)

Lemma star_none_here {A : Type} (p : ascii -> bool) (s : string) (prev : option ascii)
    (k : option ascii -> string -> option A) :
  Re.star p prev s k = None -> k prev s = None.
Proof.
  destruct s as [|a s]; cbn [Re.star]; [auto |].
  destruct (p a); [| auto].
  destruct (Re.star p (Some a) s k); [discriminate | auto].
Qed.

(** What [star] returns, its continuation returned for some repetition, and
    did not return anything for the repetition that is one character longer. *)
Lemma star_first {A : Type} (p : ascii -> bool) (s : string) :
  forall (prev : option ascii) (k : option ascii -> string -> option A) (res : A),
    Re.star p prev s k = Some res ->
    exists w rest,
      s = w ++ rest /\ Str.all p w = true /\ k (last_of prev w) rest = Some res
      /\ (forall x rest', rest = String x rest' -> p x = true ->
                          k (Some x) rest' = None).
Proof.
  induction s as [|a s IH]; intros prev k res Hrun; cbn [Re.star] in Hrun.
  - exists "", "". repeat split; auto. discriminate.
  - destruct (p a) eqn:Hp.
    + destruct (Re.star p (Some a) s k) as [r|] eqn:Hmore.
      * cbn [Re.orelse] in Hrun. injection Hrun as ->.
        destruct (IH _ _ _ Hmore) as (w & rest & -> & Hall & Hk & Hlong).
        exists (String a w), rest. cbn [Str.all String.append last_of].
        rewrite Hp, Hall. auto.
      * cbn [Re.orelse] in Hrun. exists "", (String a s).
        repeat split; auto.
        intros x rest' [= <- <-] _. exact (star_none_here _ _ _ _ Hmore).
    + exists "", (String a s). repeat split; auto.
      intros x rest' [= <- <-] Hx. congruence.
Qed.

(** ** Completeness of the matcher *)

Lemma orelse_found_right {A : Type} (x y : option A) :
  y <> None -> Re.orelse x y <> None.
Proof. destruct x; simpl; [discriminate | auto]. Qed.

Lemma star_complete {A : Type} (p : ascii -> bool) (w : string) :
  forall (prev : option ascii) (rest : string) (k : option ascii -> string -> option A),
    Str.all p w = true -> k (last_of prev w) rest <> None ->
    Re.star p prev (w ++ rest) k <> None.
Proof.
  induction w as [|c w IH]; intros prev rest k Hall Hk.
  - cbn [String.append last_of] in *. destruct rest as [|a rest]; cbn [Re.star]; [auto |].
    destruct (p a); [| auto]. now apply orelse_found_right.
  - cbn [Str.all] in Hall. apply andb_prop in Hall as [Hc Hw].
    cbn [String.append Re.star]. rewrite Hc.
    specialize (IH (Some c) rest k Hw Hk).
    destruct (Re.star p (Some c) (w ++ rest) k); [discriminate | contradiction].
Qed.

(** Where a pattern can match and the continuation returns behind the
    match, [run] returns. *)
Lemma run_complete {A : Type} (r : Re.regex) :
  forall (prev : option ascii) (w rest : string) (c c' : Re.captures)
         (k : option ascii -> string -> Re.captures -> option A),
    denotes r prev w rest c c' ->
    k (last_of prev w) rest c' <> None ->
    Re.run r prev (w ++ rest) c k <> None.
Proof.
  induction r as [|p|r1 IH1 r2 IH2|r1 IH1 r2 IH2|r1 IH1|p|p|n r1 IH1| |];
    intros prev w rest c c' k D Hk; cbn [denotes] in D; cbn [Re.run].
  - destruct D as [-> ->]. exact Hk.
  - destruct D as [(a & -> & Ha) ->]. cbn [String.append]. now rewrite Ha.
  - destruct D as (w1 & w2 & c1 & -> & D1 & D2).
    rewrite app_assoc_str. apply (IH1 _ _ _ _ _ _ D1).
    apply (IH2 _ _ _ _ _ _ D2). now rewrite <- last_of_app.
  - destruct D as [D | D].
    + specialize (IH1 _ _ _ _ _ k D Hk).
      destruct (Re.run r1 prev (w ++ rest) c k); [discriminate | contradiction].
    + apply orelse_found_right. exact (IH2 _ _ _ _ _ k D Hk).
  - destruct D as [D | [-> ->]].
    + specialize (IH1 _ _ _ _ _ k D Hk).
      destruct (Re.run r1 prev (w ++ rest) c k); [discriminate | contradiction].
    + apply orelse_found_right. exact Hk.
  - destruct D as [Hall ->]. now apply star_complete.
  - destruct D as [[Hne Hall] ->]. destruct w as [|a w]; [contradiction |].
    cbn [Str.all] in Hall. apply andb_prop in Hall as [Ha Hw].
    cbn [String.append]. rewrite Ha. now apply star_complete.
  - destruct D as (c1 & D & ->). apply (IH1 _ _ _ _ _ _ D).
    now rewrite consumed_app.
  - destruct D as [[-> Hb] ->]. cbn [String.append]. now rewrite Hb.
  - destruct D as [[-> He] ->]. cbn [String.append]. now rewrite He.
Qed.

(** A pattern without groups matches whatever the captures are. *)
Lemma denotes_any_captures (r : Re.regex) :
  groupless r = true ->
  forall prev w rest c c' d, denotes r prev w rest c c' -> denotes r prev w rest d d.
Proof.
  induction r as [|p|r1 IH1 r2 IH2|r1 IH1 r2 IH2|r1 IH1|p|p|n r1 IH1| |];
    cbn [groupless denotes]; intros G prev w rest c c' d D; try discriminate G;
    try (apply andb_prop in G as [G1 G2]).
  - destruct D as [-> _]. auto.
  - destruct D as [H _]. auto.
  - destruct D as (w1 & w2 & c1 & -> & D1 & D2).
    exists w1, w2, d. eauto.
  - destruct D as [D | D]; eauto.
  - destruct D as [D | [-> _]]; eauto.
  - destruct D as [H _]. auto.
  - destruct D as [H _]. auto.
  - destruct D as [H _]. auto.
  - destruct D as [H _]. auto.
Qed.

(** ** Where [search] finds its match *)

Lemma search_from_match (r : Re.regex) (s : string) :
  forall (prev : option ascii) (i : nat) (m : Re.match_obj),
    Re.search_from r prev i s = Some m ->
    exists pre t,
      s = pre ++ t
      /\ Re.match_at r (last_of prev pre) (i + String.length pre) t = Some m.
Proof.
  induction s as [|a s IH]; intros prev i m Hs; cbn [Re.search_from] in Hs.
  - destruct (Re.match_at r prev i "") as [m'|] eqn:Hm; [| discriminate].
    injection Hs as <-. exists "", "". cbn. now rewrite Nat.add_0_r.
  - destruct (Re.match_at r prev i (String a s)) as [m'|] eqn:Hm.
    + injection Hs as <-. exists "", (String a s). cbn. now rewrite Nat.add_0_r.
    + destruct (IH _ _ _ Hs) as (pre & t & -> & Hm').
      exists (String a pre), t. cbn [String.append last_of String.length].
      now rewrite Nat.add_succ_r.
Qed.

Lemma space_in_color_class (x : ascii) : Str.isspace x = true -> color_class x = true.
Proof. unfold color_class. intros ->. now rewrite orb_true_r. Qed.

Lemma marker_groupless : groupless (Re.seq dormspam_marker) = true.
Proof. reflexivity. Qed.

(** The shape of a match, with the longest whitespace and the longest colour
    that let the rest match. *)
Lemma dormspam_match_shape (prev : option ascii) (i : nat) (t : string)
    (m : Re.match_obj) :
  Re.match_at DORMSPAM_PATTERN prev i t = Some m ->
  exists clause ws1 c sp f post,
    t = clause ++ ws1 ++ c ++ String sp f ++ post
    /\ is_dorm_list_clause prev clause (ws1 ++ c ++ String sp f ++ post)
    /\ (ws1 <> "" /\ Str.all Str.isspace ws1 = true)
    /\ Re.group m 2 = Some c
    /\ (c <> "" /\ Str.all color_class c = true)
    /\ Str.isspace sp = true
    /\ lower_str f = "for bc-talk"
    /\ Re.at_boundary (last_of (Some sp) f) post = true
    /\ (starts_with_space c = true -> String.length c = 1).
Proof.
  unfold Re.match_at. rewrite dormspam_pattern_split, run_seq_app.
  set (K := fun (_ : option ascii) (rest : string) (c : Re.captures) =>
              Some (Re.MatchObj i (i + (String.length t - String.length rest)) c)).
  intros H.
  apply run_sound in H as (clause & rest1 & c1 & -> & Dhead & H).
  unfold dormspam_tail in H. rewrite run_seq_cons in H.
  cbn [Re.run] in H.
  destruct rest1 as [|a1 s1]; [discriminate H |].
  destruct (Str.isspace a1) eqn:Ha1; [| discriminate H].
  apply star_first in H as (w1 & rest2 & -> & Hw1 & H & Hlong1).
  rewrite run_seq_cons in H. cbn [Re.run] in H.
  destruct rest2 as [|a s2]; [discriminate H |].
  destruct (color_class a) eqn:Ha; [| discriminate H].
  apply star_first in H as (w & rest3 & -> & Hw & H & Hlong2).
  change (String a (w ++ rest3)) with (String a w ++ rest3) in H, Hlong2.
  rewrite consumed_app in H.
  pose proof H as Hmark.
  apply run_sound in H as (wm & post & c3 & -> & Dm & H).
  pose proof (denotes_groupless _ marker_groupless _ _ _ _ _ Dm) as ->.
  unfold K in H. injection H as <-.
  pose proof Dm as Dm'. unfold dormspam_marker in Dm'.
  peel Dm' as ws2 t2 Dws. peel Dm' as f t3 Df.
  destruct Dws as [[Hws2 Hall2] _].
  pose proof Df as Df'. apply denotes_lits_ignorecase in Df' as [Hf _].
  destruct Dm' as [[-> Hb] _].
  rewrite app_empty_r in E0. subst t2 wm.
  destruct ws2 as [|x ws2]; [contradiction |].
  cbn [Str.all] in Hall2. apply andb_prop in Hall2 as [Hx Hall2].
  assert (Hone : ws2 = "").
  { destruct ws2 as [|y ws2]; [reflexivity | exfalso].
    refine (run_complete (Re.seq dormspam_marker) (Some x) (String y ws2 ++ f) post
              _ _ K _ _ (Hlong2 x ((String y ws2 ++ f) ++ post) _
                           (space_in_color_class x Hx))).
    - apply (denotes_any_captures _ marker_groupless _ _ _ c c0).
      exists (String y ws2), f, c. split; [reflexivity |].
      split; [| exists f, "", c0; split; [now rewrite app_empty_r |];
                split; [exact Df |]].
      + repeat split; [discriminate | exact Hall2].
      + repeat split. exact Hb.
    - discriminate.
    - cbn [String.append]. rewrite ?app_assoc_str. reflexivity. }
  subst ws2. cbn [last_of] in Hb.
  exists clause, (String a1 w1), (String a w), x, f, post.
  assert (Et : String a1 (w1 ++ String a (w ++ (String x "" ++ f) ++ post))
               = String a1 w1 ++ String a w ++ String x f ++ post).
  { cbn [String.append]. rewrite ?app_assoc_str. reflexivity. }
  rewrite Et in *.
  split; [reflexivity |]. split; [now exists c1 |].
  split; [split; [discriminate | cbn [Str.all]; now rewrite Ha1] |].
  split; [reflexivity |].
  split; [split; [discriminate | cbn [Str.all]; now rewrite Ha] |].
  split; [exact Hx |]. split; [exact Hf |]. split; [exact Hb |].
  cbn [starts_with_space]. intros Hsp.
  destruct w as [|b w]; [reflexivity | exfalso].
  refine (run_complete
            (Re.seq (Re.Group 2 (Re.Plus color_class) :: dormspam_marker))
            (Some a) (String b w ++ String x f) post c1 _ K _ _
            (Hlong1 a ((String b w ++ String x f) ++ post) _ Hsp)).
  - exists (String b w), (String x f), (Re.set_group 2 (String b w) c1).
    split; [reflexivity |]. split.
    + exists c1. split; [| reflexivity].
      cbn [Str.all] in Hw. repeat split; [discriminate | exact Hw].
    + apply (denotes_any_captures _ marker_groupless _ _ _ _ _ _ Dm).
  - discriminate.
  - cbn [String.append]. rewrite ?app_assoc_str. reflexivity.
Qed.

Lemma quote_member (x : ascii) :
  Re.one_of true "'`-" x = true -> x = "'"%char \/ x = "`"%char \/ x = "-"%char.
Proof.
  destruct x as [[] [] [] [] [] [] [] []]; vm_compute; intros E;
    try discriminate E; auto.
Qed.

Lemma punct_member (x : ascii) :
  Re.one_of true ";,." x = true -> x = ";"%char \/ x = ","%char \/ x = "."%char.
Proof.
  destruct x as [[] [] [] [] [] [] [] []]; vm_compute; intros E;
    try discriminate E; auto.
Qed.

(** The dorm-list clause spelled out: "bcc", an optional quote mark, an
    optional "e", "d", whitespace, "to", whitespace, an optional "all" with
    whitespace, "dorms" or "dormspam", and an optional [;], [,] or [.];
    letters in either case, and a word boundary in front. *)
Lemma dorm_list_clause_reads (prev : option ascii) (clause rest : string) :
  is_dorm_list_clause prev clause rest ->
  exists bcc quote e d ws1 to ws2 all dorms punct,
    clause = bcc ++ quote ++ e ++ d ++ ws1 ++ to ++ ws2 ++ all ++ dorms ++ punct
    /\ Re.at_boundary prev (clause ++ rest) = true
    /\ lower_str bcc = "bcc"
    /\ (quote = "" \/ quote = "'" \/ quote = "`" \/ quote = "-")
    /\ (e = "" \/ lower_str e = "e")
    /\ lower_str d = "d"
    /\ (ws1 <> "" /\ Str.all Str.isspace ws1 = true)
    /\ lower_str to = "to"
    /\ (ws2 <> "" /\ Str.all Str.isspace ws2 = true)
    /\ (all = ""
        \/ exists a ws3, all = a ++ ws3 /\ lower_str a = "all"
                         /\ ws3 <> "" /\ Str.all Str.isspace ws3 = true)
    /\ (lower_str dorms = "dorms" \/ lower_str dorms = "dormspam")
    /\ (punct = "" \/ punct = ";" \/ punct = "," \/ punct = ".").
Proof.
  intros [c' D]. unfold dormspam_head in D.
  peel D as a1 t1 D1. peel D as a2 t2 D2. peel D as a3 t3 D3.
  peel D as a4 t4 D4. peel D as a5 t5 D5. peel D as a6 t6 D6.
  peel D as a7 t7 D7. peel D as a8 t8 D8. peel D as a9 t9 D9.
  peel D as a10 t10 D10. peel D as a11 t11 D11.
  destruct D1 as [[-> Hb] _].
  destruct D2 as [(x & -> & Hx) _].
  apply denotes_lits_ignorecase in D3 as [L3 _].
  apply denotes_lit in D6 as [(y & -> & Hy) _]. apply Ascii.eqb_eq in Hy.
  destruct D7 as [H7 _].
  apply denotes_lits_ignorecase in D8 as [L8 _].
  destruct D9 as [H9 _].
  exists (String x a3), a4, a5, (String y ""), a7, a8, a9, a10, a11, t11.
  subst. cbn [String.append] in *.
  split; [now rewrite ?app_assoc_str |].
  split; [exact Hb |].
  split; [cbn [lower_str]; now rewrite (bB_lower x Hx), L3 |].
  split.
  { destruct D4 as [[(q & -> & Hq) _] | [-> _]]; [| auto].
    right. destruct (quote_member q Hq) as [-> | [-> | ->]]; auto. }
  split.
  { destruct D5 as [D5 | [-> _]]; [| auto].
    apply denotes_lit in D5 as [(z & -> & Hz) _]. apply Ascii.eqb_eq in Hz.
    right. cbn [lower_str]. now rewrite Hz. }
  split; [cbn [lower_str]; now rewrite Hy |].
  split; [exact H7 |]. split; [exact L8 |]. split; [exact H9 |].
  split.
  { destruct D10 as [(cg & (u & v & cu & -> & Du & [Hv _]) & _) | [-> _]]; [| auto].
    right. apply denotes_lits_ignorecase in Du as [Lu _].
    exists u, v. auto. }
  split.
  { destruct D11 as [D11 | D11]; apply denotes_lits_ignorecase in D11 as [L11 _]; auto. }
  destruct D as [[(q & -> & Hq) _] | [-> _]]; [| auto].
  right. destruct (punct_member q Hq) as [-> | [-> | ->]]; auto.
Qed.

(** C8 (amended). When the broadcast pattern matches, the colour returned
    is the phrase between the dorm-list clause and the marker "for bc-talk"
    (matched without regard to case), without the whitespace that follows
    the clause and without the one whitespace character in front of the
    marker.  It is a non-empty run of characters of the set [*], whitespace,
    word characters and [-], and it is not trimmed any further: it may end
    in whitespace, it may begin and end with [*] or [-], and it begins with
    whitespace only when it is a single whitespace character.  The plaintext
    "Bcc'd to all dorms; yellow for bc-talk" yields [dormspam] true and the
    colour "yellow". *)
Theorem color_is_phrase_between_clause_and_marker {html_lib : HtmlLib}
    (e : Email) (c : string) :
  color e = Some c ->
  (exists pre clause ws sp f post,
      plaintext e = pre ++ clause ++ ws ++ c ++ String sp f ++ post
      /\ is_dorm_list_clause (last_of None pre) clause (ws ++ c ++ String sp f ++ post)
      /\ (ws <> "" /\ Str.all Str.isspace ws = true)
      /\ (c <> "" /\ Str.all color_class c = true)
      /\ Str.isspace sp = true
      /\ lower_str f = "for bc-talk"
      /\ Re.at_boundary (last_of (Some sp) f) post = true
      /\ (starts_with_space c = true -> String.length c = 1))
  /\ (plaintext e = "Bcc'd to all dorms; yellow for bc-talk" ->
      c = "yellow" /\ dormspam e = true).
Proof.
  intros Hc. split.
  - unfold color, color_of, Re.search in Hc.
    destruct (Re.search_from DORMSPAM_PATTERN None 0 (plaintext e)) as [m|] eqn:Hs;
      [| discriminate Hc].
    apply search_from_match in Hs as (pre & t & Ht & Hm).
    apply dormspam_match_shape in Hm
      as (clause & ws & g & sp & f & post & -> & Hcl & Hws & Hg & Hcol & Hrest).
    unfold DORMSPAM_PATTERN_COLOR_GROUP in Hc. rewrite Hg in Hc. injection Hc as <-.
    exists pre, clause, ws, sp, f, post. rewrite Ht. tauto.
  - intros Hp. unfold dormspam. unfold color in *. rewrite Hp in *.
    vm_compute in Hc. injection Hc as <-. split; reflexivity.
Qed.

(** ** The further properties at concrete inputs *)

(** X2 at the text "AT&T". *)
Lemma html2text_loses_text_with_open_reference_witness :
  html2text (html_lib := waiting_html_lib) ("AT" ++ "&" ++ "T") = "".
Proof.
  apply (html2text_loses_text_with_open_reference (html_lib := waiting_html_lib)
           "AT" "T"); try reflexivity.
  simpl. lia.
Defined.

(** X3 at a text with a finished reference. *)
Lemma html2text_unescapes_tag_free_text_witness :
  html2text (html_lib := waiting_html_lib) ("a" ++ "&" ++ "amp;b")
  = Str.strip (charref_sub (HtmlLib := waiting_html_lib) ("a" ++ "&" ++ "amp;b")).
Proof.
  apply (html2text_unescapes_tag_free_text (html_lib := waiting_html_lib)
           "a" "amp;b"); try reflexivity.
  left. reflexivity.
Defined.

(** X5 at the sample message. *)
Lemma digested_fields_come_from_headers_witness :
  exists e,
    digest (mail_lib := fixed_mail_lib sample_mail)
           (image_lib := transparent_codec) sample_mail = ret e
    /\ Some noon = Some (sent e) /\ subject e = "Tea"
    /\ message_id e = "<id-1@mit.edu>" /\ name (sender e) = Some "Alice".
Proof.
  assert (Hd : { e | digest (mail_lib := fixed_mail_lib sample_mail)
                            (image_lib := transparent_codec) sample_mail = ret e })
    by (eexists; vm_compute; reflexivity).
  destruct Hd as [e Hd]. exists e. split; [exact Hd |].
  destruct (digested_fields_come_from_headers
              (mail_lib := fixed_mail_lib sample_mail)
              (image_lib := transparent_codec) sample_mail e Hd)
    as (Hdate & [Hs _] & [Hi _] & _ & (n & a & o & Hf & Hn & _)).
  injection Hf as <- _ _. auto.
Defined.

(** X6 at the sample message, whose first recipient has an address only. *)
Lemma to_contact_is_first_recipient_witness :
  exists e,
    digest (mail_lib := fixed_mail_lib sample_mail)
           (image_lib := transparent_codec) sample_mail = ret e
    /\ to e <> None.
Proof.
  assert (Hd : { e | digest (mail_lib := fixed_mail_lib sample_mail)
                            (image_lib := transparent_codec) sample_mail = ret e })
    by (eexists; vm_compute; reflexivity).
  destruct Hd as [e Hd]. exists e. split; [exact Hd |].
  destruct (to_contact_is_first_recipient
              (mail_lib := fixed_mail_lib sample_mail)
              (image_lib := transparent_codec) sample_mail e Hd)
    as [[Hnone _] _].
  intros Hn. destruct (Hnone Hn) as [H | [others H]]; discriminate H.
Defined.

(** X7 at a sender without a proper address. *)
Lemma bad_sender_address_fails_digestion_witness :
  digest (mail_lib := fixed_mail_lib mail_with_bad_sender)
         (image_lib := transparent_codec) mail_with_bad_sender
  = raise (LibraryError "AddressFormatError").
Proof.
  apply (bad_sender_address_fails_digestion
           (mail_lib := fixed_mail_lib mail_with_bad_sender)
           (image_lib := transparent_codec) mail_with_bad_sender
           "Mallory" "mallory at mit" []); reflexivity.
Defined.

(** X8 at a mail to undisclosed recipients. *)
Lemma bad_recipient_address_fails_digestion_witness :
  digest (mail_lib := fixed_mail_lib mail_with_bad_recipient)
         (image_lib := transparent_codec) mail_with_bad_recipient
  = raise (LibraryError "AddressFormatError").
Proof.
  apply (bad_recipient_address_fails_digestion
           (mail_lib := fixed_mail_lib mail_with_bad_recipient)
           (image_lib := transparent_codec) mail_with_bad_recipient
           "Alice" "alice@mit.edu" [] (mkEmailAddress "alice" "mit.edu")
           "Everyone" "undisclosed-recipients:;" []); try reflexivity.
  left. discriminate.
Defined.

(** X9 at a plaintext mail with an attachment that is no image. *)
Lemma plaintext_mail_ignores_payloads_witness :
  digest (mail_lib := fixed_mail_lib mail_with_plain_body_only)
         (image_lib := blind_codec) mail_with_plain_body_only
  = digest (mail_lib := fixed_mail_lib mail_with_plain_body_only)
           (image_lib := transparent_codec)
           (with_attachments [mkAttachment "notes" None ""]
              mail_with_plain_body_only).
Proof.
  apply (plaintext_mail_ignores_payloads
           (mail_lib := fixed_mail_lib mail_with_plain_body_only)
           blind_codec transparent_codec mail_with_plain_body_only
           [mkAttachment "notes" None ""]); reflexivity.
Defined.

(** X11 at attachments without content id, with a codec that would reject
    them. *)
Lemma attachments_without_content_id_are_ignored_witness :
  digest (mail_lib := fixed_mail_lib mail_with_unnamed_attachments)
         (image_lib := blind_codec) mail_with_unnamed_attachments
  = digest (mail_lib := fixed_mail_lib mail_with_unnamed_attachments)
           (image_lib := blind_codec)
           (with_attachments [] mail_with_unnamed_attachments).
Proof.
  apply (attachments_without_content_id_are_ignored
           (mail_lib := fixed_mail_lib mail_with_unnamed_attachments)
           (image_lib := blind_codec) mail_with_unnamed_attachments).
  repeat constructor.
Defined.

(** X12 at the sample message. *)
Lemma plaintext_cleanup_only_deletes_witness :
  exists e body,
    digest (mail_lib := fixed_mail_lib sample_mail)
           (image_lib := transparent_codec) sample_mail = ret e
    /\ content e !! "text/plain" = Some body
    /\ String.length body <= 19.
Proof.
  assert (Hd : { e | digest (mail_lib := fixed_mail_lib sample_mail)
                            (image_lib := transparent_codec) sample_mail = ret e })
    by (eexists; vm_compute; reflexivity).
  destruct Hd as [e Hd].
  destruct (plaintext_cleanup_only_deletes
              (mail_lib := fixed_mail_lib sample_mail)
              (image_lib := transparent_codec) sample_mail e
              "See [cid:img1] here" ["second plain part"] Hd eq_refl)
    as (body & Hb & Hl).
  exists e, body. auto.
Defined.

(** X13 at the message whose attachment is no image. *)
Lemma digestion_fails_for_three_reasons_witness :
  exists a,
    In a (MailParser.attachments mail_with_stray_attachment)
    /\ cid_of a <> ""
    /\ compress_image (image_lib := blind_codec) (payload_fixed a)
       = raise (LibraryError "UnidentifiedImageError").
Proof.
  destruct (digestion_fails_for_three_reasons
              (mail_lib := fixed_mail_lib mail_with_stray_attachment)
              (image_lib := blind_codec) mail_with_stray_attachment
              (LibraryError "UnidentifiedImageError") eq_refl)
    as [[H _] | [(n & a & o & [Hf | Ht] & Hp) | [_ H]]].
  - exfalso. apply H. reflexivity.
  - exfalso. injection Hf as <- <- <-. vm_compute in Hp. discriminate Hp.
  - discriminate Ht.
  - exact H.
Defined.

(** X14 at the sample message. *)
Lemma digestion_succeeds_witness :
  exists e,
    digest (mail_lib := fixed_mail_lib sample_mail)
           (image_lib := transparent_codec) sample_mail = ret e.
Proof.
  apply (digestion_succeeds (mail_lib := fixed_mail_lib sample_mail)
           (image_lib := transparent_codec) sample_mail).
  - reflexivity.
  - intros n a o [= <- <- <-]. eexists. vm_compute. reflexivity.
  - intros n a o [= <- <- <-] _. eexists. vm_compute. reflexivity.
  - intros _ a [<- | []] _. eexists. vm_compute. reflexivity.
Defined.

(** X15 at an address of the sample message. *)
Lemma matched_address_renders_back_witness :
  exists m user dom,
    Re.match_pos address_pattern "alice@mit.edu" 0 = Some m
    /\ Re.group m 1 = Some user /\ Re.group m 2 = Some dom
    /\ user <> "" /\ Str.all address_domain_char dom = true.
Proof.
  assert (Hm : { m | Re.match_pos address_pattern "alice@mit.edu" 0 = Some m })
    by (eexists; vm_compute; reflexivity).
  destruct Hm as [m Hm].
  destruct (matched_address_renders_back "alice@mit.edu" m Hm)
    as (user & dom & H1 & H2 & _ & Hne & _ & Hd).
  exists m, user, dom. auto.
Defined.

(** X16 at two addresses of one domain. *)
Lemma distinct_addresses_render_differently_witness :
  EmailAddress_str (mkEmailAddress "alice" "mit.edu")
  <> EmailAddress_str (mkEmailAddress "bob" "mit.edu").
Proof.
  apply (distinct_addresses_render_differently
           (mkEmailAddress "alice" "mit.edu") (mkEmailAddress "bob" "mit.edu"));
    [reflexivity | reflexivity | discriminate].
Defined.

(** X17 at a text that is no timestamp. *)
Lemma parse_date_passes_other_errors_on_witness :
  parse_date (time_lib := one_date_time_lib) "yesterday"
  = raise (ValueError "time data does not match format").
Proof.
  apply (parse_date_passes_other_errors_on (time_lib := one_date_time_lib)
           "yesterday" (ValueError "time data does not match format"));
    [reflexivity |].
  intros msg [= <-]. reflexivity.
Defined.

(** X18 at a mail that announces nothing. *)
Lemma no_marker_no_dormspam_witness :
  color (html_lib := waiting_html_lib) quiet_email = None
  /\ dormspam (html_lib := waiting_html_lib) quiet_email = false.
Proof.
  apply (no_marker_no_dormspam (html_lib := waiting_html_lib) quiet_email).
  reflexivity.
Defined.

(** X19 at a mail with text around the announcement. *)
Lemma announced_color_is_found_witness :
  color (html_lib := waiting_html_lib) announcement_email = Some "plum-red"
  /\ dormspam (html_lib := waiting_html_lib) announcement_email = true.
Proof.
  apply (announced_color_is_found (html_lib := waiting_html_lib)
           announcement_email "Free tea! " "plum-red" ".");
    reflexivity || discriminate.
Defined.

(** C1 at a mail without From, with and without a Subject. *)
Lemma absent_sender_is_not_reported_witness :
  eat (mail_lib := fixed_mail_lib mail_without_sender_and_subject)
      (image_lib := transparent_codec) "raw mail"
  = raise (EmailMissingHeaders "failed to parse: 'Subject'")
  /\ eat (mail_lib := fixed_mail_lib mail_without_sender)
         (image_lib := transparent_codec) "raw mail"
     = raise (LibraryError "AddressFormatError").
Proof.
  split.
  - destruct (absent_sender_is_not_reported
                (mail_lib := fixed_mail_lib mail_without_sender_and_subject)
                (image_lib := transparent_codec) "raw mail" eq_refl)
      as (_ & Hlisted & _).
    apply Hlisted. intros H. vm_compute in H. discriminate H.
  - destruct (absent_sender_is_not_reported
                (mail_lib := fixed_mail_lib mail_without_sender)
                (image_lib := transparent_codec) "raw mail" eq_refl)
      as (_ & _ & Hparsed).
    apply Hparsed; reflexivity.
Defined.

(** C8 (amended) at the broadcast of the spec. *)
Lemma color_is_phrase_between_clause_and_marker_witness :
  color (html_lib := waiting_html_lib) broadcast_email = Some "yellow"
  /\ dormspam (html_lib := waiting_html_lib) broadcast_email = true.
Proof.
  split; [reflexivity |].
  apply (color_is_phrase_between_clause_and_marker (html_lib := waiting_html_lib)
           broadcast_email "yellow"); reflexivity.
Defined.
